(** * The GStreamer -> numpy frame bridge of [src/gstreamer_source.py]

    A shallow embedding of [GStreamerFileSource]: the numpy operations
    the new-sample callback performs on the mapped buffer, Python's
    [queue.Queue] as the callback and the consumer use it, and the
    methods of the class as state-passing functions over a record of
    its attributes.  Python integers are modelled as [Z], the mapped
    buffer as a list of bytes, an [ndarray] as its shape together with
    its elements in row-major (C) order. *)

From Stdlib Require Import ZArith Lia List Strings.Byte Strings.String.
From stdpp Require Import base list.

Local Open Scope Z_scope.

(** ** Python exceptions that the modelled code can raise. *)

Inductive exn : Type :=
| ZeroDivisionError   (* [tmp_map.size // height] with [height == 0] *)
| ValueError          (* numpy: cannot reshape array *)
| IndexError          (* numpy: too many indices for array *)
| RuntimeError.       (* threading: threads can only be started once *)

(** ** numpy, as far as [_on_new_sample] uses it *)

Module Numpy.

(** [np.ndarray] of dtype uint8: the shape and the elements in
    row-major order.  A view and its copy are the same value here. *)
Record ndarray : Type := NdArray { shape : list nat; flat : list byte }.

Definition size (a : ndarray) : nat := length (flat a).

(** [np.frombuffer(b, dtype=np.uint8)] *)
Definition frombuffer (b : list byte) : ndarray := NdArray [length b] b.

(** Python's slice [[:k]] over [len] items stops at [k], counted from
    the end when [k] is negative, and clips to [0 .. len]. *)
Definition slice_stop (len : nat) (k : Z) : nat :=
  if k <? 0 then Z.to_nat (Z.of_nat len + k) else Nat.min (Z.to_nat k) len.

(** [a[:k]] on a one-dimensional array. *)
Definition slice_to (a : ndarray) (k : Z) : ndarray :=
  let n := slice_stop (size a) k in NdArray [n] (take n (flat a)).

(** The product of the dimensions of a requested shape that are given
    (a negative dimension is the one numpy infers). *)
Fixpoint known_size (dims : list Z) : Z :=
  match dims with
  | [] => 1
  | d :: ds => if d <? 0 then known_size ds else d * known_size ds
  end.

Fixpoint unknown_dims (dims : list Z) : nat :=
  match dims with
  | [] => O
  | d :: ds => if d <? 0 then S (unknown_dims ds) else unknown_dims ds
  end.

(** [a.reshape(dims)]: [None] stands for numpy's [ValueError].  With
    no negative dimension the sizes must agree; with one, it is
    inferred when the known part is non-zero and divides the size. *)
Definition reshape (a : ndarray) (dims : list Z) : option ndarray :=
  let n := Z.of_nat (size a) in
  let k := known_size dims in
  match unknown_dims dims with
  | O => if n =? k then Some (NdArray (map Z.to_nat dims) (flat a)) else None
  | S O =>
      if (k =? 0) || negb (n mod k =? 0) then None
      else Some (NdArray
                   (map (fun d => if d <? 0 then Z.to_nat (n / k) else Z.to_nat d) dims)
                   (flat a))
  | _ => None
  end.

(** The rows of a two-dimensional array stored in row-major order. *)
Fixpoint rows_of (cols rows : nat) (l : list byte) : list (list byte) :=
  match rows with
  | O => []
  | S r => take cols l :: rows_of cols r (drop cols l)
  end.

(** The elements of [rows] rows of [cols] bytes when each row is cut
    to its first [keep] bytes. *)
Definition packed (keep cols rows : nat) (l : list byte) : list byte :=
  concat (map (take keep) (rows_of cols rows l)).

(** [a[:, :k]] on a two-dimensional array; [None] stands for the
    [IndexError] numpy raises on an array of fewer dimensions. *)
Definition slice_cols (a : ndarray) (k : Z) : option ndarray :=
  match shape a with
  | [r; c] =>
      let c' := slice_stop c k in
      Some (NdArray [r; c'] (packed c' c r (flat a)))
  | _ => None
  end.

(** [a.copy()]: a fresh array with the same shape and elements. *)
Definition copy (a : ndarray) : ndarray := a.

End Numpy.

Import Numpy.

(** ** Python's [queue.Queue] *)

Module Queue.

Record t (A : Type) : Type := Make { maxsize : Z; items : list A }.
Arguments Make {A} _ _.
Arguments maxsize {A} _.
Arguments items {A} _.

(** [queue.Queue(maxsize)] *)
Definition new {A} (maxsize : Z) : t A := Make maxsize [].

Definition qsize {A} (q : t A) : nat := length (items q).

(** [q.put_nowait(x)]: [None] stands for [queue.Full].  A queue whose
    [maxsize] is not positive never is full. *)
Definition put_nowait {A} (q : t A) (x : A) : option (t A) :=
  if (0 <? maxsize q) && (maxsize q <=? Z.of_nat (qsize q)) then None
  else Some (Make (maxsize q) (items q ++ [x])).

(** [q.get()] with [block=True, timeout=None]: [None] stands for a
    caller that waits on the [not_empty] condition. *)
Definition get {A} (q : t A) : option (A * t A) :=
  match items q with
  | [] => None
  | x :: rest => Some (x, Make (maxsize q) rest)
  end.

End Queue.

(** ** What GStreamer hands to the callbacks *)

(** The sample pulled from the appsink: the width and height of its
    caps, the stride of plane 0 when the buffer carries a video meta,
    the bytes of the buffer and whether [buf.map] succeeds. *)
Record RawSample : Type := {
  width : Z;
  height : Z;
  video_meta : option Z;
  buf : list byte;
  buf_map_ok : bool
}.

(** [Gst.FlowReturn] *)
Inductive FlowReturn : Type := OK | ERROR.

(** [Gst.State], as far as the class sets it. *)
Inductive State : Type := NULL | PLAYING.

(** [Gst.Message], by [message.type]. *)
Inductive Message : Type :=
| EOS
| ERROR_MSG (err debug : string)
| OTHER.

(** The lines the class prints. *)
Inductive printed : Type :=
| BufferSmallerThanExpected (size : nat) (row_stride height : Z)
| RowWidthMismatch (valid_row_bytes row_stride : Z)
| GStreamerERROR (err debug : string).

(** ** Control flow of a callback body

    A body either goes on with a value, returns early (having printed
    some lines), or raises. *)

Inductive flow (A : Type) : Type :=
| Continue (a : A)
| Return (r : FlowReturn) (out : list printed)
| Raise (e : exn).
Arguments Continue {A} _.
Arguments Return {A} _ _.
Arguments Raise {A} _.

#[global] Instance flow_bind : MBind flow := fun A B k m =>
  match m with
  | Continue a => k a
  | Return r out => Return r out
  | Raise e => Raise e
  end.

(** A numpy call that raises [e] when it fails. *)
Definition or_raise {A} (e : exn) (o : option A) : flow A :=
  match o with
  | Some a => Continue a
  | None => Raise e
  end.

(** ** The class *)

(** How a method call ends for its caller. *)
Inductive outcome (A : Type) : Type :=
| Returns (a : A)
| Raises (e : exn)
| Blocks.
Arguments Returns {A} _.
Arguments Raises {A} _.
Arguments Blocks {A}.

(** The attributes of a [GStreamerFileSource].  [_pipeline] holds the
    state last requested with [set_state], [_loop] whether the GLib
    main loop is running (it is taken to run from the moment its
    thread is started), [_thread] whether the thread was started.
    [stdout] collects what is printed, and [done_writes] the values
    assigned to [self._done] after construction, in order. *)
Record GStreamerFileSource : Type := {
  _filename : string;
  _width : Z;
  _height : Z;
  _queue : Queue.t ndarray;
  _done : bool;
  _pipeline : State;
  _loop : bool;
  _thread : bool;
  stdout : list printed;
  done_writes : list bool
}.

Definition default_queue_size : Z := 10.

(** [__init__(filename, width, height, queue_size)] *)
Definition __init__ (filename : string) (width height queue_size : Z)
  : GStreamerFileSource :=
  {| _filename := filename;
     _width := width;
     _height := height;
     _queue := Queue.new queue_size;
     _done := false;
     _pipeline := NULL;
     _loop := false;
     _thread := false;
     stdout := [];
     done_writes := [] |}.

Definition set_queue (q : Queue.t ndarray) (self : GStreamerFileSource) :=
  {| _filename := _filename self; _width := _width self; _height := _height self;
     _queue := q; _done := _done self; _pipeline := _pipeline self;
     _loop := _loop self; _thread := _thread self;
     stdout := stdout self; done_writes := done_writes self |}.

Definition set_done (b : bool) (self : GStreamerFileSource) :=
  {| _filename := _filename self; _width := _width self; _height := _height self;
     _queue := _queue self; _done := b; _pipeline := _pipeline self;
     _loop := _loop self; _thread := _thread self;
     stdout := stdout self; done_writes := done_writes self ++ [b] |}.

Definition set_state (s : State) (self : GStreamerFileSource) :=
  {| _filename := _filename self; _width := _width self; _height := _height self;
     _queue := _queue self; _done := _done self; _pipeline := s;
     _loop := _loop self; _thread := _thread self;
     stdout := stdout self; done_writes := done_writes self |}.

Definition set_loop (b : bool) (self : GStreamerFileSource) :=
  {| _filename := _filename self; _width := _width self; _height := _height self;
     _queue := _queue self; _done := _done self; _pipeline := _pipeline self;
     _loop := b; _thread := _thread self;
     stdout := stdout self; done_writes := done_writes self |}.

Definition set_thread (b : bool) (self : GStreamerFileSource) :=
  {| _filename := _filename self; _width := _width self; _height := _height self;
     _queue := _queue self; _done := _done self; _pipeline := _pipeline self;
     _loop := _loop self; _thread := b;
     stdout := stdout self; done_writes := done_writes self |}.

Definition print (out : list printed) (self : GStreamerFileSource) :=
  {| _filename := _filename self; _width := _width self; _height := _height self;
     _queue := _queue self; _done := _done self; _pipeline := _pipeline self;
     _loop := _loop self; _thread := _thread self;
     stdout := stdout self ++ out; done_writes := done_writes self |}.

(** [start()]: the pipeline is set to PLAYING, then the thread that
    runs the main loop is started; Python refuses to start a thread a
    second time. *)
Definition start (self : GStreamerFileSource)
  : outcome unit * GStreamerFileSource :=
  let self := set_state PLAYING self in
  if _thread self then (Raises RuntimeError, self)
  else (Returns tt, set_loop true (set_thread true self)).

(** [stop()] *)
Definition stop (self : GStreamerFileSource)
  : outcome unit * GStreamerFileSource :=
  let self := set_state NULL self in
  let self := if _loop self then set_loop false self else self in
  (Returns tt, set_done true self).

(** The [done] property. *)
Definition done (self : GStreamerFileSource) : bool := _done self.

(** [_on_bus_message(bus, message)] *)
Definition _on_bus_message (self : GStreamerFileSource) (message : Message)
  : outcome unit * GStreamerFileSource :=
  match message with
  | EOS => stop (set_done true self)
  | ERROR_MSG err debug =>
      stop (set_done true (print [GStreamerERROR err debug] self))
  | OTHER => (Returns tt, self)
  end.

(** [_on_new_sample], lines 92-102: the stride of plane 0 from the
    video meta, or else the size of the mapped buffer divided by the
    height. *)
Definition row_stride_of (sample : RawSample) : flow Z :=
  match video_meta sample with
  | Some stride0 => Continue stride0
  | None =>
      if negb (buf_map_ok sample) then Return ERROR []
      else if height sample =? 0 then Raise ZeroDivisionError
      else Continue (Z.of_nat (length (buf sample)) / height sample)
  end.

(** [_on_new_sample], lines 104-138: the mapped buffer is cut to
    [height] rows of [row_stride] bytes, each row to its first
    [width*3] bytes, and the result is copied as a
    [(height, width, 3)] array. *)
Definition unpack_rows (sample : RawSample) (row_stride : Z) : flow ndarray :=
  let width := width sample in
  let height := height sample in
  if negb (buf_map_ok sample) then Return ERROR [] else
  let data := frombuffer (buf sample) in
  let expected_size := row_stride * height in
  if Z.of_nat (size data) <? expected_size then
    Return ERROR [BufferSmallerThanExpected (size data) row_stride height]
  else
  frame_padded ← or_raise ValueError
                    (reshape (slice_to data expected_size) [height; row_stride]);
  let valid_row_bytes := width * 3 in
  if valid_row_bytes >? row_stride then
    Return ERROR [RowWidthMismatch valid_row_bytes row_stride]
  else
  frame_2d ← or_raise IndexError (slice_cols frame_padded valid_row_bytes);
  frame ← or_raise ValueError (reshape frame_2d [height; width; 3]);
  Continue (copy frame).

(** [_on_new_sample] up to [frame.copy()]: the frame that the callback
    is about to queue, or how the callback ends before that. *)
Definition unpack (sample : RawSample) : flow ndarray :=
  row_stride ← row_stride_of sample;
  unpack_rows sample row_stride.

(** [_on_new_sample(sink)], given the sample that [sink] delivers.
    The [finally] clause unmaps the buffer on every path, which leaves
    no trace in the attributes. *)
Definition _on_new_sample (self : GStreamerFileSource) (sample : RawSample)
  : outcome FlowReturn * GStreamerFileSource :=
  match unpack sample with
  | Continue frame =>
      match Queue.put_nowait (_queue self) frame with
      | Some q => (Returns OK, set_queue q self)
      | None => (Returns OK, self)        (* queue.Full: the frame is dropped *)
      end
  | Return r out => (Returns r, print out self)
  | Raise e => (Raises e, self)
  end.

(** [get_frame_blocking()] *)
Definition get_frame_blocking (self : GStreamerFileSource)
  : outcome ndarray * GStreamerFileSource :=
  match Queue.get (_queue self) with
  | Some (frame, q) => (Returns frame, set_queue q self)
  | None => (Blocks, self)
  end.

(** ** Runs of the bridge

    The calls that reach one [GStreamerFileSource], in the order in
    which they take effect: the queue is guarded by its mutex, so the
    callback thread and the consumer interleave at the level of whole
    [put_nowait] and [get] calls. *)

Inductive event : Type :=
| Start
| Stop
| BusMessage (message : Message)
| NewSample (sample : RawSample)
| GetFrame.

(** What a run has shown so far: the frames the callback unpacked, the
    ones it dropped on a full queue, and the ones the consumer got. *)
Record trace : Type := {
  produced : list ndarray;
  dropped : list ndarray;
  consumed : list ndarray
}.

Definition no_trace : trace := {| produced := []; dropped := []; consumed := [] |}.

Definition step (st : GStreamerFileSource * trace) (e : event)
  : GStreamerFileSource * trace :=
  let (self, tr) := st in
  match e with
  | Start => (snd (start self), tr)
  | Stop => (snd (stop self), tr)
  | BusMessage message => (snd (_on_bus_message self message), tr)
  | NewSample sample =>
      (snd (_on_new_sample self sample),
       match unpack sample with
       | Continue frame =>
           {| produced := produced tr ++ [frame];
              dropped := match Queue.put_nowait (_queue self) frame with
                         | Some _ => dropped tr
                         | None => dropped tr ++ [frame]
                         end;
              consumed := consumed tr |}
       | _ => tr
       end)
  | GetFrame =>
      (snd (get_frame_blocking self),
       match fst (get_frame_blocking self) with
       | Returns frame =>
           {| produced := produced tr; dropped := dropped tr;
              consumed := consumed tr ++ [frame] |}
       | _ => tr
       end)
  end.

Definition run (st : GStreamerFileSource * trace) (events : list event)
  : GStreamerFileSource * trace :=
  fold_left step events st.

(** The sample [sample] with the bytes [b] in its buffer. *)
Definition with_buf (b : list byte) (sample : RawSample) : RawSample :=
  {| width := width sample; height := height sample;
     video_meta := video_meta sample; buf := b;
     buf_map_ok := buf_map_ok sample |}.

(** A sample of [n] bytes [0, 1, 2, ...], for the examples. *)
Definition counting_bytes (n : nat) : list byte :=
  map (fun i => match Byte.of_nat i with Some b => b | None => x00 end) (seq 0 n).

Definition sample_of (w h : Z) (stride : option Z) (n : nat) : RawSample :=
  {| width := w; height := h; video_meta := stride;
     buf := counting_bytes n; buf_map_ok := true |}.

(** A one-pixel sample whose three bytes all are [tag], and the frame
    the callback makes of it. *)
Definition tagged_sample (tag : byte) : RawSample :=
  {| width := 1; height := 1; video_meta := Some 3;
     buf := [tag; tag; tag]; buf_map_ok := true |}.

Definition tagged_frame (tag : byte) : ndarray :=
  NdArray [1%nat; 1%nat; 3%nat] [tag; tag; tag].

(** The frames consumed so far, followed by the frames that wait in
    the queue, are a subsequence of the frames produced, and all of
    them as long as nothing was dropped. *)
Definition in_order (st : GStreamerFileSource * trace) : Prop :=
  consumed (snd st) ++ Queue.items (_queue (fst st)) `sublist_of` produced (snd st)
  ∧ (dropped (snd st) = [] →
     consumed (snd st) ++ Queue.items (_queue (fst st)) = produced (snd st)).

(** Three sources for the examples: started and then stopped, ended
    by the end of the stream, and ended by an error message. *)
Definition stopped_source : GStreamerFileSource :=
  fst (run (__init__ "video.mp4" 4 2 default_queue_size, no_trace) [Start; Stop]).

Definition ended_source : GStreamerFileSource :=
  fst (run (__init__ "video.mp4" 4 2 default_queue_size, no_trace)
         [Start; BusMessage EOS]).

Definition failed_source : GStreamerFileSource :=
  fst (run (__init__ "video.mp4" 1 1 default_queue_size, no_trace)
         [Start; BusMessage (ERROR_MSG "decode" "detail")]).

(** A run in which the third of four frames meets a full queue. *)
Definition example_run : GStreamerFileSource * trace :=
  run (__init__ "video.mp4" 1 1 2, no_trace)
    [Start; NewSample (tagged_sample x01); NewSample (tagged_sample x02);
     NewSample (tagged_sample x03); GetFrame;
     NewSample (tagged_sample x04); GetFrame].

(** ** The consumer loop of [main.py]

    [main()] builds the source, starts it and then runs, inside the
    server context,

      while not source.done:
          frame = await loop.run_in_executor(None, source.get_frame_blocking)
          frame = cv2.resize(frame, (IMAGE_WIDTH, IMAGE_HEIGHT))
          ret, jpeg = cv2.imencode(".jpg", frame)
          if not ret: ...; continue
          ... build and send the messages ...

    followed by [source.stop()].  The loop is modelled on a source on
    which no callback runs meanwhile; [imencode_ok] says of a pulled
    frame whether cv2 encodes it, the sleep and the server calls are
    taken to return, and [sent] collects the frames whose messages were
    sent.  [None] stands for a loop that is still running when [fuel]
    iterations are over. *)
Fixpoint main_loop (imencode_ok : ndarray -> bool) (fuel : nat)
    (source : GStreamerFileSource) (sent : list ndarray)
  : option (outcome unit * GStreamerFileSource * list ndarray) :=
  match fuel with
  | O => None
  | S fuel' =>
      if done source then Some (Returns tt, source, sent)
      else
        match get_frame_blocking source with
        | (Returns frame, source') =>
            if imencode_ok frame
            then main_loop imencode_ok fuel' source' (sent ++ [frame])
            else main_loop imencode_ok fuel' source' sent
        | (Raises e, source') => Some (Raises e, source', sent)
        | (Blocks, source') => Some (Blocks, source', sent)
        end
  end.

(** The loop and the cleanup [source.stop()] that follows it. *)
Definition main_from (imencode_ok : ndarray -> bool) (fuel : nat)
    (source : GStreamerFileSource)
  : option (outcome unit * GStreamerFileSource * list ndarray) :=
  match main_loop imencode_ok fuel source [] with
  | Some (Returns _, source', sent) =>
      Some (fst (stop source'), snd (stop source'), sent)
  | other => other
  end.

(** The sample [sample] with the stride [stride0] in its video meta. *)
Definition with_video_meta (stride0 : Z) (sample : RawSample) : RawSample :=
  {| width := width sample; height := height sample;
     video_meta := Some stride0; buf := buf sample;
     buf_map_ok := buf_map_ok sample |}.

(** The attributes of a source, without the record of the assignments
    to the done flag. *)
Definition attributes (self : GStreamerFileSource) :=
  (_filename self, _width self, _height self, _queue self, _done self,
   _pipeline self, _loop self, _thread self, stdout self).

(** A source with two frames waiting when the stream ends. *)
Definition ended_with_two_queued : GStreamerFileSource :=
  fst (run (__init__ "video.mp4" 1 1 default_queue_size, no_trace)
         [Start; NewSample (tagged_sample x01); NewSample (tagged_sample x02);
          BusMessage EOS]).

(** A started source with two frames waiting. *)
Definition playing_with_two_queued : GStreamerFileSource :=
  fst (run (__init__ "video.mp4" 1 1 default_queue_size, no_trace)
         [Start; NewSample (tagged_sample x01); NewSample (tagged_sample x02)]).

(** The frames that the callback makes of a list of samples, in
    order; the samples it rejects give none. *)
Definition unpacked (samples : list RawSample) : list ndarray :=
  omap (fun sample => match unpack sample with
                      | Continue frame => Some frame
                      | _ => None
                      end) samples.

(** One pull after every delivery. *)
Definition deliver_and_pull (samples : list RawSample) : list event :=
  flat_map (fun sample => [NewSample sample; GetFrame]) samples.

(** * Properties *)

(** ** Rows of a padded buffer *)

Section Rows.
Local Open Scope nat_scope.

Lemma rows_of_length cols rows l : length (rows_of cols rows l) = rows.
Proof. revert l; induction rows as [|r IH]; intros l; simpl; [done|]. by rewrite IH. Qed.

(** Only the first [cols * rows] bytes take part in the rows. *)
Lemma rows_of_take cols rows l :
  rows_of cols rows (take (cols * rows) l) = rows_of cols rows l.
Proof.
  revert l; induction rows as [|r IH]; intros l; simpl; [done|].
  replace (cols * S r) with (cols + cols * r) by lia.
  rewrite take_take, <- take_drop_commute, IH.
  f_equal. f_equal. lia.
Qed.

Lemma packed_length keep cols rows l :
  keep ≤ cols → cols * rows ≤ length l →
  length (packed keep cols rows l) = rows * keep.
Proof.
  unfold packed. intros Hk. revert l; induction rows as [|r IH]; intros l Hl; simpl; [done|].
  rewrite length_app, IH by (rewrite length_drop; lia).
  rewrite !length_take. lia.
Qed.

Lemma packed_lookup keep cols rows l i j :
  keep ≤ cols → cols * rows ≤ length l → i < rows → j < keep →
  packed keep cols rows l !! (i * keep + j) = l !! (i * cols + j).
Proof.
  unfold packed. intros Hk. revert l i.
  induction rows as [|r IH]; intros l i Hl Hi Hj; simpl; [lia|].
  assert (Hlen : length (take keep (take cols l)) = keep)
    by (rewrite !length_take; lia).
  destruct i as [|i]; simpl.
  - rewrite lookup_app_l by lia.
    by rewrite !lookup_take_lt by lia.
  - rewrite lookup_app_r by lia. rewrite Hlen.
    replace (keep + i * keep + j - keep) with (i * keep + j) by lia.
    rewrite IH by (try rewrite length_drop; lia).
    rewrite lookup_drop. f_equal. lia.
Qed.

(** Without padding nothing is cut. *)
Lemma packed_no_padding cols rows l :
  packed cols cols rows l = take (cols * rows) l.
Proof.
  unfold packed. revert l; induction rows as [|r IH]; intros l; simpl.
  - by rewrite Nat.mul_0_r.
  - rewrite IH, take_idemp, take_take_drop. f_equal. lia.
Qed.

Lemma packed_take keep cols rows l :
  packed keep cols rows (take (cols * rows) l) = packed keep cols rows l.
Proof. unfold packed. by rewrite rows_of_take. Qed.

End Rows.

(** ** numpy on non-negative sizes *)

Lemma slice_stop_nonneg len k :
  0 ≤ k → k ≤ Z.of_nat len → slice_stop len k = Z.to_nat k.
Proof.
  intros H0 Hk. unfold slice_stop.
  destruct (Z.ltb_spec k 0); lia.
Qed.

Lemma unknown_dims_nonneg dims :
  Forall (λ d, 0 ≤ d) dims → unknown_dims dims = 0%nat.
Proof.
  induction 1 as [|d ds Hd _ IH]; simpl; [done|].
  destruct (Z.ltb_spec d 0); [lia|done].
Qed.

Lemma known_size_nonneg dims :
  Forall (λ d, 0 ≤ d) dims → known_size dims = foldr Z.mul 1 dims.
Proof.
  induction 1 as [|d ds Hd _ IH]; simpl; [done|].
  destruct (Z.ltb_spec d 0); [lia|by rewrite IH].
Qed.

(** A reshape to given sizes succeeds exactly when they multiply to the
    size of the array, and it keeps the elements. *)
Lemma reshape_nonneg a dims :
  Forall (λ d, 0 ≤ d) dims →
  Z.of_nat (size a) = foldr Z.mul 1 dims →
  reshape a dims = Some (NdArray (map Z.to_nat dims) (flat a)).
Proof.
  intros Hd Hn. unfold reshape.
  rewrite unknown_dims_nonneg, known_size_nonneg by done.
  by rewrite (proj2 (Z.eqb_eq _ _) Hn).
Qed.

(** ** The unpacker on a well-formed sample *)

(** With enough bytes and rows at least as wide as the pixels, the
    frame is the packed rows of the buffer. *)
Lemma unpack_rows_ok (sample : RawSample) (row_stride : Z) :
  buf_map_ok sample = true →
  0 ≤ width sample → 0 ≤ height sample →
  width sample * 3 ≤ row_stride →
  row_stride * height sample ≤ Z.of_nat (length (buf sample)) →
  unpack_rows sample row_stride =
    Continue (NdArray [Z.to_nat (height sample); Z.to_nat (width sample); 3%nat]
                (packed (Z.to_nat (width sample * 3)) (Z.to_nat row_stride)
                   (Z.to_nat (height sample)) (buf sample))).
Proof.
  intros Hok Hw Hh Hws Hlen.
  assert (Hs : 0 ≤ row_stride) by lia.
  assert (Hexp : 0 ≤ row_stride * height sample) by lia.
  unfold unpack_rows. rewrite Hok. cbn [negb].
  unfold frombuffer, size at 1. cbn [flat].
  destruct (Z.ltb_spec (Z.of_nat (length (buf sample))) (row_stride * height sample)) as [|_];
    [lia|].
  unfold slice_to, size at 1 2. cbn [flat].
  rewrite slice_stop_nonneg by lia.
  rewrite reshape_nonneg; cycle 1.
  { repeat constructor; lia. }
  { unfold size; cbn [flat foldr]. rewrite length_take_le by lia. lia. }
  cbn [or_raise mbind flow_bind map flat].
  destruct (Z.gtb_spec (width sample * 3) row_stride) as [|_]; [lia|].
  unfold slice_cols. cbn [shape flat].
  rewrite slice_stop_nonneg by lia.
  cbn [or_raise mbind flow_bind].
  rewrite reshape_nonneg; cycle 1.
  { repeat constructor; lia. }
  { unfold size; cbn [flat foldr].
    rewrite packed_length by (try rewrite length_take_le; nia). nia. }
  cbn [or_raise mbind flow_bind map copy flat].
  by rewrite (Z2Nat.inj_mul row_stride), packed_take by lia.
Qed.

(** The two ways in which the unpacker bails out. *)
Lemma unpack_rows_short (sample : RawSample) (row_stride : Z) :
  buf_map_ok sample = true →
  Z.of_nat (length (buf sample)) < row_stride * height sample →
  unpack_rows sample row_stride =
    Return ERROR [BufferSmallerThanExpected (length (buf sample)) row_stride
                    (height sample)].
Proof.
  intros Hok Hlen. unfold unpack_rows. rewrite Hok. cbn [negb].
  unfold frombuffer, size. cbn [flat].
  by destruct (Z.ltb_spec (Z.of_nat (length (buf sample))) (row_stride * height sample));
    [|lia].
Qed.

Lemma unpack_rows_mismatch (sample : RawSample) (row_stride : Z) :
  buf_map_ok sample = true →
  0 ≤ height sample → 0 ≤ row_stride →
  row_stride * height sample ≤ Z.of_nat (length (buf sample)) →
  row_stride < width sample * 3 →
  unpack_rows sample row_stride =
    Return ERROR [RowWidthMismatch (width sample * 3) row_stride].
Proof.
  intros Hok Hh Hs Hlen Hws.
  unfold unpack_rows. rewrite Hok. cbn [negb].
  unfold frombuffer, size at 1. cbn [flat].
  destruct (Z.ltb_spec (Z.of_nat (length (buf sample))) (row_stride * height sample)) as [|_];
    [lia|].
  unfold slice_to, size at 1 2. cbn [flat].
  rewrite slice_stop_nonneg by lia.
  rewrite reshape_nonneg; cycle 1.
  { repeat constructor; lia. }
  { unfold size; cbn [flat foldr]. rewrite length_take_le by lia. lia. }
  cbn [or_raise mbind flow_bind].
  by destruct (Z.gtb_spec (width sample * 3) row_stride); [|lia].
Qed.

Lemma unpack_rows_unmapped (sample : RawSample) (row_stride : Z) :
  buf_map_ok sample = false → unpack_rows sample row_stride = Return ERROR [].
Proof. intros Hok. unfold unpack_rows. by rewrite Hok. Qed.

(** The short-buffer line is printed only for a short buffer. *)
Lemma unpack_rows_prints_short (sample : RawSample) (row_stride : Z) r out n s h :
  unpack_rows sample row_stride = Return r out →
  In (BufferSmallerThanExpected n s h) out →
  Z.of_nat (length (buf sample)) < row_stride * height sample.
Proof.
  unfold unpack_rows.
  destruct (buf_map_ok sample); cbn [negb].
  2:{ intros [= _ <-] []. }
  unfold frombuffer, size at 1. cbn [flat].
  destruct (Z.ltb_spec (Z.of_nat (length (buf sample))) (row_stride * height sample));
    [done|].
  destruct (reshape _ [height sample; row_stride]) as [frame_padded|];
    cbn [or_raise mbind flow_bind]; [|done].
  destruct (width sample * 3 >? row_stride).
  { intros [= _ <-] [?|[]]. done. }
  destruct (slice_cols _ _) as [frame_2d|]; cbn [or_raise mbind flow_bind]; [|done].
  destruct (reshape _ _) as [frame|]; cbn [or_raise mbind flow_bind]; done.
Qed.

Lemma unpack_with_meta (sample : RawSample) (stride : Z) :
  video_meta sample = Some stride → unpack sample = unpack_rows sample stride.
Proof. intros Hm. unfold unpack, row_stride_of. by rewrite Hm. Qed.

(** What [_on_new_sample] does with the outcome of the unpacker. *)
Lemma on_new_sample_frame self sample frame :
  unpack sample = Continue frame →
  _on_new_sample self sample =
    (Returns OK,
     match Queue.put_nowait (_queue self) frame with
     | Some q => set_queue q self
     | None => self
     end).
Proof.
  intros Hu. unfold _on_new_sample. rewrite Hu.
  by destruct (Queue.put_nowait _ _).
Qed.

Lemma on_new_sample_bail self sample r out :
  unpack sample = Return r out →
  _on_new_sample self sample = (Returns r, print out self).
Proof. intros Hu. unfold _on_new_sample. by rewrite Hu. Qed.

(** ** C1-C3: the Pixel Unpacker *)

(** C1. For every sample whose video meta gives a stride greater than
    [width*3] and whose buffer holds at least [stride*height] bytes,
    the callback unpacks a frame of shape [(height, width, 3)]: byte
    [c] of row [r] of the frame is byte [c] of row [r] of the source
    for every [c < width*3], the [stride - width*3] bytes that end each
    source row are left out, and the frame is the same for every buffer
    with the same first [stride*height] bytes. *)
Theorem unpack_drops_row_padding (sample : RawSample) (stride : Z) :
  video_meta sample = Some stride →
  buf_map_ok sample = true →
  0 ≤ width sample → 0 ≤ height sample →
  width sample * 3 < stride →
  stride * height sample ≤ Z.of_nat (length (buf sample)) →
  ∃ frame : ndarray,
    unpack sample = Continue frame
    ∧ shape frame = [Z.to_nat (height sample); Z.to_nat (width sample); 3%nat]
    ∧ Z.of_nat (size frame) = height sample * (width sample * 3)
    ∧ Z.of_nat (size frame) =
        stride * height sample - height sample * (stride - width sample * 3)
    ∧ (∀ r c : Z, 0 ≤ r < height sample → 0 ≤ c < width sample * 3 →
         flat frame !! Z.to_nat (r * (width sample * 3) + c)
         = buf sample !! Z.to_nat (r * stride + c))
    ∧ (∀ b : list byte,
         take (Z.to_nat (stride * height sample)) b
         = take (Z.to_nat (stride * height sample)) (buf sample) →
         unpack (with_buf b sample) = Continue frame).
Proof.
  intros Hm Hok Hw Hh Hws Hlen.
  eexists. split; [|split; [|split; [|split; [|split]]]].
  - rewrite (unpack_with_meta _ _ Hm). by apply unpack_rows_ok; [|lia..].
  - done.
  - unfold size; cbn [flat]. rewrite packed_length by nia. nia.
  - unfold size; cbn [flat]. rewrite packed_length by nia. nia.
  - intros r c Hr Hc. cbn [flat].
    rewrite Z2Nat.inj_add, Z2Nat.inj_mul by nia.
    rewrite packed_lookup by nia.
    f_equal. rewrite Z2Nat.inj_add, Z2Nat.inj_mul by nia. done.
  - intros b Hb.
    assert (Hbl : stride * height sample ≤ Z.of_nat (length b)).
    { apply (f_equal length) in Hb. rewrite !length_take in Hb. lia. }
    rewrite (unpack_with_meta _ stride) by done.
    rewrite unpack_rows_ok by (cbn; lia || done).
    cbn [with_buf width height buf]. do 2 f_equal.
    rewrite <- (packed_take _ _ _ b), <- (packed_take _ _ _ (buf sample)).
    by rewrite <- (Z2Nat.inj_mul stride), Hb by lia.
Qed.

(** The synthetic source of the design: [width = 4], [height = 2],
    [stride = 16], thirty-two bytes. *)
Lemma unpack_drops_row_padding_witness :
  ∃ frame : ndarray,
    unpack (sample_of 4 2 (Some 16) 32) = Continue frame
    ∧ shape frame = [2%nat; 4%nat; 3%nat]
    ∧ Z.of_nat (size frame) = 2 * (4 * 3)
    ∧ Z.of_nat (size frame) = 16 * 2 - 2 * (16 - 4 * 3)
    ∧ (∀ r c : Z, 0 ≤ r < 2 → 0 ≤ c < 4 * 3 →
         flat frame !! Z.to_nat (r * (4 * 3) + c)
         = counting_bytes 32 !! Z.to_nat (r * 16 + c))
    ∧ (∀ b : list byte,
         take (Z.to_nat (16 * 2)) b = take (Z.to_nat (16 * 2)) (counting_bytes 32) →
         unpack (with_buf b (sample_of 4 2 (Some 16) 32)) = Continue frame).
Proof.
  apply (unpack_drops_row_padding (sample_of 4 2 (Some 16) 32) 16);
    [reflexivity | reflexivity | simpl; lia | simpl; lia | simpl; lia | vm_compute; discriminate].
Defined.

(** C2. For every sample whose video meta gives [stride = width*3] and
    whose buffer holds at least [stride*height] bytes, the unpacked
    frame holds exactly the first [stride*height] bytes of the buffer,
    which is the whole buffer when it has no more than that. *)
Theorem unpack_without_padding_is_identity (sample : RawSample) (stride : Z) :
  video_meta sample = Some stride →
  buf_map_ok sample = true →
  0 ≤ width sample → 0 ≤ height sample →
  stride = width sample * 3 →
  stride * height sample ≤ Z.of_nat (length (buf sample)) →
  ∃ frame : ndarray,
    unpack sample = Continue frame
    ∧ shape frame = [Z.to_nat (height sample); Z.to_nat (width sample); 3%nat]
    ∧ flat frame = take (Z.to_nat (stride * height sample)) (buf sample)
    ∧ (Z.of_nat (length (buf sample)) = stride * height sample →
       flat frame = buf sample).
Proof.
  intros Hm Hok Hw Hh Hs Hlen.
  assert (Hflat :
    packed (Z.to_nat (width sample * 3)) (Z.to_nat stride)
      (Z.to_nat (height sample)) (buf sample)
    = take (Z.to_nat (stride * height sample)) (buf sample)).
  { rewrite <- Hs, packed_no_padding. by rewrite Z2Nat.inj_mul by lia. }
  eexists. split; [|split; [|split]].
  - rewrite (unpack_with_meta _ _ Hm). by apply unpack_rows_ok; [|lia..].
  - done.
  - exact Hflat.
  - intros Hall. cbn [flat]. rewrite Hflat. apply take_ge. lia.
Qed.

Lemma unpack_without_padding_is_identity_witness :
  ∃ frame : ndarray,
    unpack (sample_of 4 2 (Some 12) 24) = Continue frame
    ∧ shape frame = [2%nat; 4%nat; 3%nat]
    ∧ flat frame = take (Z.to_nat (12 * 2)) (counting_bytes 24)
    ∧ (Z.of_nat (length (counting_bytes 24)) = 12 * 2 →
       flat frame = counting_bytes 24).
Proof.
  apply (unpack_without_padding_is_identity (sample_of 4 2 (Some 12) 24) 12);
    [reflexivity | reflexivity | simpl; lia | simpl; lia | reflexivity
    | vm_compute; discriminate].
Defined.

(** C3. For every sample with a non-negative height and stride where
    [width*3 > stride], or where the buffer is shorter than
    [stride*height] bytes, the callback returns [Gst.FlowReturn.ERROR]
    to the pipeline (after printing the reason when the buffer could be
    mapped); it raises nothing, and it leaves the queue and the done
    flag as they were. *)
Theorem bad_layout_is_rejected
    (self : GStreamerFileSource) (sample : RawSample) (stride : Z) :
  row_stride_of sample = Continue stride →
  0 ≤ height sample → 0 ≤ stride →
  (width sample * 3 > stride
   ∨ Z.of_nat (length (buf sample)) < stride * height sample) →
  ∃ out : list printed,
    unpack sample = Return ERROR out
    ∧ _on_new_sample self sample = (Returns ERROR, print out self)
    ∧ _queue (snd (_on_new_sample self sample)) = _queue self
    ∧ _done (snd (_on_new_sample self sample)) = _done self
    ∧ (buf_map_ok sample = true →
       out = [BufferSmallerThanExpected (length (buf sample)) stride (height sample)]
       ∨ out = [RowWidthMismatch (width sample * 3) stride]).
Proof.
  intros Hrs Hh Hs Hbad.
  assert (Hu : ∃ out, unpack_rows sample stride = Return ERROR out
     ∧ (buf_map_ok sample = true →
       out = [BufferSmallerThanExpected (length (buf sample)) stride (height sample)]
       ∨ out = [RowWidthMismatch (width sample * 3) stride])).
  { destruct (buf_map_ok sample) eqn:Hok.
    - destruct (Z.lt_ge_cases (Z.of_nat (length (buf sample))) (stride * height sample)).
      + eexists; split; [by apply unpack_rows_short|]. by left.
      + eexists; split; [apply unpack_rows_mismatch; lia || done|]. by right.
    - eexists; split; [by apply unpack_rows_unmapped|]. done. }
  destruct Hu as (out & Hu & Hout).
  assert (Hun : unpack sample = Return ERROR out).
  { unfold unpack. rewrite Hrs. exact Hu. }
  exists out. rewrite (on_new_sample_bail _ _ _ _ Hun). done.
Qed.

Lemma bad_layout_is_rejected_witness :
  ∃ out : list printed,
    unpack (sample_of 4 2 (Some 10) 32) = Return ERROR out
    ∧ _on_new_sample (__init__ "video.mp4" 4 2 10) (sample_of 4 2 (Some 10) 32)
      = (Returns ERROR, print out (__init__ "video.mp4" 4 2 10))
    ∧ _queue (snd (_on_new_sample (__init__ "video.mp4" 4 2 10) (sample_of 4 2 (Some 10) 32)))
      = _queue (__init__ "video.mp4" 4 2 10)
    ∧ _done (snd (_on_new_sample (__init__ "video.mp4" 4 2 10) (sample_of 4 2 (Some 10) 32)))
      = _done (__init__ "video.mp4" 4 2 10)
    ∧ (buf_map_ok (sample_of 4 2 (Some 10) 32) = true →
       out = [BufferSmallerThanExpected
                (length (buf (sample_of 4 2 (Some 10) 32))) 10 2]
       ∨ out = [RowWidthMismatch (4 * 3) 10]).
Proof.
  apply (bad_layout_is_rejected (__init__ "video.mp4" 4 2 10)
           (sample_of 4 2 (Some 10) 32) 10);
    [reflexivity | simpl; lia | lia | left; simpl; lia].
Defined.

(** ** C10: the stride inferred without a video meta *)

(** C10. When the buffer has no video meta and maps, and the height is
    positive, the stride is the floor of the buffer size over the
    height, so [row_stride * height] never exceeds the buffer size and
    the callback never takes the short-buffer branch; a buffer whose
    size is not a multiple of the height gets a stride with
    [row_stride * height] strictly below its size and, when
    [width*3] fits that stride, is unpacked with nothing printed. *)
Theorem inferred_stride_never_short (sample : RawSample) :
  video_meta sample = None →
  buf_map_ok sample = true →
  0 < height sample →
  let size := Z.of_nat (length (buf sample)) in
  let row_stride := size / height sample in
  row_stride_of sample = Continue row_stride
  ∧ row_stride * height sample ≤ size
  ∧ (∀ r out n s h, unpack sample = Return r out →
       ¬ In (BufferSmallerThanExpected n s h) out)
  ∧ (size mod height sample ≠ 0 → row_stride * height sample < size)
  ∧ (0 ≤ width sample → width sample * 3 ≤ row_stride →
     ∃ frame : ndarray,
       unpack sample = Continue frame
       ∧ flat frame = packed (Z.to_nat (width sample * 3)) (Z.to_nat row_stride)
                        (Z.to_nat (height sample)) (buf sample)
       ∧ ∀ self, fst (_on_new_sample self sample) = Returns OK
                 ∧ stdout (snd (_on_new_sample self sample)) = stdout self).
Proof.
  intros Hm Hok Hh size row_stride.
  assert (Hrs : row_stride_of sample = Continue row_stride).
  { unfold row_stride_of. rewrite Hm, Hok. cbn [negb].
    by destruct (Z.eqb_spec (height sample) 0); [lia|]. }
  assert (Hle : row_stride * height sample ≤ size).
  { subst row_stride. rewrite Z.mul_comm. apply Z.mul_div_le. lia. }
  assert (H0 : 0 ≤ row_stride).
  { subst row_stride size. apply Z.div_pos; lia. }
  split; [done|]. split; [done|]. split; [|split].
  - intros r out n s h Hu Hin.
    unfold unpack in Hu. rewrite Hrs in Hu. cbn [mbind flow_bind] in Hu.
    pose proof (unpack_rows_prints_short _ _ _ _ _ _ _ Hu Hin). lia.
  - intros Hmod. subst row_stride.
    pose proof (Z.div_mod size (height sample)) as Hdm.
    pose proof (Z.mod_pos_bound size (height sample) Hh). lia.
  - intros Hw Hws.
    assert (Hu : unpack sample =
      Continue (NdArray [Z.to_nat (height sample); Z.to_nat (width sample); 3%nat]
                (packed (Z.to_nat (width sample * 3)) (Z.to_nat row_stride)
                   (Z.to_nat (height sample)) (buf sample)))).
    { unfold unpack. rewrite Hrs. cbn [mbind flow_bind].
      apply unpack_rows_ok; done || lia. }
    eexists. split; [exact Hu|]. split; [done|].
    intros self. rewrite (on_new_sample_frame _ _ _ Hu). cbn [fst snd].
    split; [done|]. by destruct (Queue.put_nowait _ _).
Qed.

(** Seven bytes in two rows: a stride of three, and one byte unused. *)
Lemma inferred_stride_never_short_witness :
  row_stride_of (sample_of 1 2 None 7) = Continue 3
  ∧ 3 * 2 < 7
  ∧ ∃ frame : ndarray,
      unpack (sample_of 1 2 None 7) = Continue frame
      ∧ flat frame = packed 3 3 2 (counting_bytes 7).
Proof.
  assert (H := inferred_stride_never_short (sample_of 1 2 None 7)
                 ltac:(reflexivity) ltac:(reflexivity) ltac:(simpl; lia)).
  cbv zeta in H. destruct H as (Hs & _ & _ & Hlt & Hframe).
  split; [exact Hs|]. split; [apply Hlt; vm_compute; discriminate|].
  destruct Hframe as (frame & Hu & Hf & _); [simpl; lia | vm_compute; discriminate|].
  exists frame. split; [exact Hu | exact Hf].
Defined.

(** ** The queue under the callback and the consumer *)

(** Calls other than [_on_new_sample] and [get_frame_blocking] leave
    the queue alone. *)
Lemma start_queue self : _queue (snd (start self)) = _queue self.
Proof. unfold start. by destruct (_thread _). Qed.

Lemma stop_queue self : _queue (snd (stop self)) = _queue self.
Proof. unfold stop. cbn. by destruct (_loop self). Qed.

Lemma on_bus_message_queue self message :
  _queue (snd (_on_bus_message self message)) = _queue self.
Proof. destruct message; cbn [_on_bus_message]; [| |done]; by rewrite stop_queue. Qed.

Lemma put_nowait_maxsize {A} (q q' : Queue.t A) x :
  Queue.put_nowait q x = Some q' → Queue.maxsize q' = Queue.maxsize q.
Proof.
  unfold Queue.put_nowait. destruct (_ && _); [done|]. by intros [= <-].
Qed.

Lemma put_nowait_full {A} (q : Queue.t A) x :
  0 < Queue.maxsize q → Queue.maxsize q ≤ Z.of_nat (Queue.qsize q) →
  Queue.put_nowait q x = None.
Proof.
  intros H0 Hfull. unfold Queue.put_nowait.
  destruct (Z.ltb_spec 0 (Queue.maxsize q)); [|lia].
  by destruct (Z.leb_spec (Queue.maxsize q) (Z.of_nat (Queue.qsize q))); [|lia].
Qed.

Lemma put_nowait_room {A} (q : Queue.t A) x :
  Z.of_nat (Queue.qsize q) < Queue.maxsize q →
  Queue.put_nowait q x = Some (Queue.Make (Queue.maxsize q) (Queue.items q ++ [x])).
Proof.
  intros Hroom. unfold Queue.put_nowait.
  destruct (Z.leb_spec (Queue.maxsize q) (Z.of_nat (Queue.qsize q))); [lia|].
  by rewrite andb_false_r.
Qed.

(** A queue without a positive [maxsize] takes every item. *)
Lemma put_nowait_unbounded {A} (q : Queue.t A) x :
  Queue.maxsize q ≤ 0 →
  Queue.put_nowait q x = Some (Queue.Make (Queue.maxsize q) (Queue.items q ++ [x])).
Proof.
  intros Hm. unfold Queue.put_nowait.
  by destruct (Z.ltb_spec 0 (Queue.maxsize q)); [lia|].
Qed.

Lemma take_take_app {A} (n : nat) (l k : list A) :
  take n (take n l ++ k) = take n (l ++ k).
Proof.
  destruct (Nat.le_gt_cases n (length l)).
  - rewrite !take_app_le; [by rewrite take_idemp|done|by rewrite length_take_le].
  - by rewrite (take_ge l) by lia.
Qed.

(** One delivered frame: the queue keeps its first [maxsize] items. *)
Lemma step_new_sample_items self tr sample frame :
  0 < Queue.maxsize (_queue self) →
  Z.of_nat (Queue.qsize (_queue self)) ≤ Queue.maxsize (_queue self) →
  unpack sample = Continue frame →
  let self' := fst (step (self, tr) (NewSample sample)) in
  Queue.maxsize (_queue self') = Queue.maxsize (_queue self)
  ∧ Queue.items (_queue self')
    = take (Z.to_nat (Queue.maxsize (_queue self))) (Queue.items (_queue self) ++ [frame]).
Proof.
  intros Hpos Hle Hu. cbn [step fst].
  rewrite (on_new_sample_frame _ _ _ Hu). cbn [snd].
  unfold Queue.qsize in Hle.
  destruct (Z.lt_ge_cases (Z.of_nat (Queue.qsize (_queue self)))
              (Queue.maxsize (_queue self))) as [Hroom|Hfull].
  - rewrite put_nowait_room by done. cbn. split; [done|].
    rewrite take_ge; [done|]. rewrite length_app. unfold Queue.qsize in Hroom.
    cbn. lia.
  - rewrite put_nowait_full by lia. split; [done|].
    unfold Queue.qsize in Hfull.
    rewrite take_app_length'; [done|lia].
Qed.

Lemma run_new_samples_items samples frames : ∀ self tr,
  Forall2 (λ sample frame, unpack sample = Continue frame) samples frames →
  0 < Queue.maxsize (_queue self) →
  Z.of_nat (Queue.qsize (_queue self)) ≤ Queue.maxsize (_queue self) →
  Queue.items (_queue (fst (run (self, tr) (map NewSample samples))))
  = take (Z.to_nat (Queue.maxsize (_queue self))) (Queue.items (_queue self) ++ frames).
Proof.
  intros self tr HF. revert self tr.
  induction HF as [|sample frame samples frames Hu _ IH]; intros self tr Hpos Hle.
  - cbn. rewrite app_nil_r, take_ge; [done|]. unfold Queue.qsize in Hle. lia.
  - cbn [map run fold_left].
    destruct (step_new_sample_items self tr sample frame Hpos Hle Hu) as [Hm Hi].
    destruct (step (self, tr) (NewSample sample)) as [self' tr'] eqn:Hs.
    cbn [fst] in Hm, Hi. fold (run (self', tr') (map NewSample samples)).
    rewrite IH; rewrite ?Hm; [|done|].
    + rewrite Hi, take_take_app, <- app_assoc. done.
    + unfold Queue.qsize. rewrite Hi, length_take. lia.
Qed.

(** ** C4: drop-newest on a full queue *)

(** C4. For a queue of capacity [capacity > 0] (10 when the source is
    built with the default): the callback never blocks; on a full queue
    it still returns [OK], the incoming frame is discarded and the
    queue is left as it was; after any number of deliveries with no
    [get] in between, the queue holds the first [capacity] of the
    frames it held and was given, so that more than [capacity] frames
    pushed into an empty queue leave exactly the oldest [capacity]. *)
Theorem full_queue_drops_newest
    (self : GStreamerFileSource) (capacity : Z)
    (samples : list RawSample) (frames : list ndarray) :
  0 < capacity →
  Queue.maxsize (_queue self) = capacity →
  Z.of_nat (Queue.qsize (_queue self)) ≤ capacity →
  Forall2 (λ sample frame, unpack sample = Continue frame) samples frames →
  let self' := fst (run (self, no_trace) (map NewSample samples)) in
  (∀ filename w h, _queue (__init__ filename w h default_queue_size) = Queue.new 10)
  ∧ (∀ sample, fst (_on_new_sample self sample) ≠ Blocks)
  ∧ (Z.of_nat (Queue.qsize (_queue self)) = capacity →
     ∀ sample frame, unpack sample = Continue frame →
       Queue.put_nowait (_queue self) frame = None
       ∧ _on_new_sample self sample = (Returns OK, self))
  ∧ Queue.items (_queue self')
    = take (Z.to_nat capacity) (Queue.items (_queue self) ++ frames)
  ∧ (Queue.items (_queue self) = [] → capacity < Z.of_nat (length frames) →
     Queue.items (_queue self') = take (Z.to_nat capacity) frames
     ∧ Z.of_nat (length (Queue.items (_queue self'))) = capacity).
Proof.
  intros Hpos Hmax Hle HF self'.
  assert (Hitems : Queue.items (_queue self')
    = take (Z.to_nat capacity) (Queue.items (_queue self) ++ frames)).
  { subst self'. rewrite <- Hmax. apply run_new_samples_items; done || lia. }
  split; [done|]. split; [|split; [|split; [done|]]].
  - intros sample. unfold _on_new_sample.
    destruct (unpack sample); [by destruct (Queue.put_nowait _ _)|done..].
  - intros Hfull sample frame Hu.
    assert (Hput : Queue.put_nowait (_queue self) frame = None)
      by (apply put_nowait_full; lia).
    split; [done|]. by rewrite (on_new_sample_frame _ _ _ Hu), Hput.
  - intros Hempty Hmore. rewrite Hitems, Hempty. cbn [app].
    split; [done|]. rewrite length_take. lia.
Qed.

(** Capacity 2 and frames tagged 1, 2, 3, 4: the queue holds 1 and 2. *)
Lemma full_queue_drops_newest_witness :
  Queue.items
    (_queue (fst (run (__init__ "video.mp4" 1 1 2, no_trace)
                    (map NewSample [tagged_sample x01; tagged_sample x02;
                                    tagged_sample x03; tagged_sample x04]))))
  = [tagged_frame x01; tagged_frame x02].
Proof.
  assert (H := full_queue_drops_newest (__init__ "video.mp4" 1 1 2) 2
                [tagged_sample x01; tagged_sample x02;
                 tagged_sample x03; tagged_sample x04]
                [tagged_frame x01; tagged_frame x02;
                 tagged_frame x03; tagged_frame x04]
                ltac:(lia) ltac:(reflexivity) ltac:(vm_compute; discriminate)
                ltac:(repeat constructor)).
  destruct H as (_ & _ & _ & _ & H).
  apply H; [reflexivity | simpl; lia].
Defined.

(** ** C5: the consumer sees the frames in the order they were made *)

Lemma get_frame_blocking_cases self :
  (Queue.items (_queue self) = [] ∧ get_frame_blocking self = (Blocks, self))
  ∨ (∃ frame rest, Queue.items (_queue self) = frame :: rest
       ∧ fst (get_frame_blocking self) = Returns frame
       ∧ Queue.items (_queue (snd (get_frame_blocking self))) = rest).
Proof.
  unfold get_frame_blocking, Queue.get.
  destruct (Queue.items (_queue self)) as [|frame rest]; [by left|].
  right. by exists frame, rest.
Qed.

Lemma step_in_order st e : in_order st → in_order (step st e).
Proof.
  destruct st as [self tr]. unfold in_order. cbn [fst snd].
  intros [Hsub Heq]. destruct e as [| |message|sample|]; cbn [step fst snd].
  - by rewrite start_queue.
  - by rewrite stop_queue.
  - by rewrite on_bus_message_queue.
  - unfold _on_new_sample.
    destruct (unpack sample) as [frame|r out|e]; cbn [fst snd]; [|done..].
    unfold Queue.put_nowait.
    destruct (_ && _); cbn [snd produced dropped consumed _queue set_queue Queue.items].
    + split; [by apply sublist_inserts_r|].
      intros Hd. by destruct (dropped tr).
    + rewrite !app_assoc. split; [by apply sublist_app|].
      intros Hd. by rewrite Heq.
  - destruct (get_frame_blocking_cases self) as [[Hempty ->]|(frame & rest & Hi & -> & ->)];
      cbn [fst snd produced dropped consumed]; [done|].
    rewrite Hi in Hsub, Heq. by rewrite <- app_assoc.
Qed.

Lemma run_in_order events : ∀ st, in_order st → in_order (run st events).
Proof.
  induction events as [|e events IH]; intros st Hst; [done|].
  cbn [run fold_left]. apply IH. by apply step_in_order.
Qed.

(** C5. For every sequence of calls on a source that starts with an
    empty queue, the frames the consumer has got are a subsequence of
    the frames the callback produced, in the order of production and
    each at most once; when no frame was dropped they are a prefix of
    the produced frames, the rest of which waits in the queue. *)
Theorem consumer_sees_ordered_subsequence
    (self : GStreamerFileSource) (events : list event) :
  Queue.items (_queue self) = [] →
  let st := run (self, no_trace) events in
  consumed (snd st) `sublist_of` produced (snd st)
  ∧ consumed (snd st) ++ Queue.items (_queue (fst st)) `sublist_of` produced (snd st)
  ∧ (dropped (snd st) = [] →
     consumed (snd st) `prefix_of` produced (snd st)
     ∧ consumed (snd st) ++ Queue.items (_queue (fst st)) = produced (snd st)).
Proof.
  intros Hempty st.
  assert (Hin : in_order st).
  { apply run_in_order. unfold in_order. cbn. by rewrite Hempty. }
  destruct Hin as [Hsub Heq].
  split; [|split; [done|]].
  - etrans; [|exact Hsub]. by apply sublist_inserts_r.
  - intros Hd. split; [|by apply Heq].
    exists (Queue.items (_queue (fst st))). by rewrite Heq.
Qed.

Lemma consumer_sees_ordered_subsequence_witness :
  consumed (snd example_run) `sublist_of` produced (snd example_run)
  ∧ consumed (snd example_run) ++ Queue.items (_queue (fst example_run))
    `sublist_of` produced (snd example_run).
Proof.
  assert (H := consumer_sees_ordered_subsequence (__init__ "video.mp4" 1 1 2)
                 [Start; NewSample (tagged_sample x01); NewSample (tagged_sample x02);
                  NewSample (tagged_sample x03); GetFrame;
                  NewSample (tagged_sample x04); GetFrame]
                 ltac:(reflexivity)).
  destruct H as (H1 & H2 & _). split; [exact H1 | exact H2].
Defined.

(** ** The lifecycle: [stop], end of stream and errors *)

Lemma stop_spec self :
  fst (stop self) = Returns tt
  ∧ _done (snd (stop self)) = true
  ∧ _pipeline (snd (stop self)) = NULL
  ∧ _loop (snd (stop self)) = false
  ∧ done_writes (snd (stop self)) = done_writes self ++ [true].
Proof. unfold stop. cbn. by destruct (_loop self) eqn:Hloop; cbn. Qed.

Lemma on_bus_message_stops self message :
  message ≠ OTHER →
  fst (_on_bus_message self message) = Returns tt
  ∧ _done (snd (_on_bus_message self message)) = true
  ∧ _pipeline (snd (_on_bus_message self message)) = NULL
  ∧ done_writes (snd (_on_bus_message self message))
    = done_writes self ++ [true; true].
Proof.
  intros Hm. destruct message as [|err debug|]; [| |done]; cbn [_on_bus_message].
  - destruct (stop_spec (set_done true self)) as (-> & -> & -> & _ & ->).
    cbn. by rewrite <- app_assoc.
  - destruct (stop_spec (set_done true (print [GStreamerERROR err debug] self)))
      as (-> & -> & -> & _ & ->).
    cbn. by rewrite <- app_assoc.
Qed.

Lemma on_new_sample_keeps self sample :
  _done (snd (_on_new_sample self sample)) = _done self
  ∧ _pipeline (snd (_on_new_sample self sample)) = _pipeline self
  ∧ done_writes (snd (_on_new_sample self sample)) = done_writes self.
Proof.
  unfold _on_new_sample.
  destruct (unpack sample); [by destruct (Queue.put_nowait _ _)|done..].
Qed.

Lemma get_frame_blocking_keeps self :
  _done (snd (get_frame_blocking self)) = _done self
  ∧ _pipeline (snd (get_frame_blocking self)) = _pipeline self
  ∧ done_writes (snd (get_frame_blocking self)) = done_writes self.
Proof.
  unfold get_frame_blocking. by destruct (Queue.get _) as [[frame q]|].
Qed.

Lemma start_keeps self :
  _done (snd (start self)) = _done self
  ∧ done_writes (snd (start self)) = done_writes self.
Proof. unfold start. by destruct (_thread _). Qed.

(** No call resets the done flag. *)
Lemma step_done st e : _done (fst st) = true → _done (fst (step st e)) = true.
Proof.
  destruct st as [self tr]. cbn [fst]. intros Hd.
  destruct e as [| |message|sample|]; cbn [step fst].
  - by destruct (start_keeps self) as [-> _].
  - by destruct (stop_spec self) as (_ & -> & _).
  - destruct message as [|err debug|]; [| |done].
    + by destruct (on_bus_message_stops self EOS) as (_ & -> & _).
    + by destruct (on_bus_message_stops self (ERROR_MSG err debug)) as (_ & -> & _).
  - by destruct (on_new_sample_keeps self sample) as (-> & _).
  - by destruct (get_frame_blocking_keeps self) as (-> & _).
Qed.

Lemma run_done events : ∀ st,
  _done (fst st) = true → _done (fst (run st events)) = true.
Proof.
  induction events as [|e events IH]; intros st Hd; [done|].
  cbn [run fold_left]. apply IH. by apply step_done.
Qed.

(** Every assignment to the done flag stores [True]. *)
Lemma step_done_writes st e :
  ∃ n : nat, done_writes (fst (step st e)) = done_writes (fst st) ++ replicate n true.
Proof.
  destruct st as [self tr]. cbn [fst].
  destruct e as [| |message|sample|]; cbn [step fst].
  - exists 0%nat. destruct (start_keeps self) as [_ ->]. by rewrite app_nil_r.
  - exists 1%nat. by destruct (stop_spec self) as (_ & _ & _ & _ & ->).
  - destruct message as [|err debug|].
    + exists 2%nat. by destruct (on_bus_message_stops self EOS) as (_ & _ & _ & ->).
    + exists 2%nat.
      by destruct (on_bus_message_stops self (ERROR_MSG err debug)) as (_ & _ & _ & ->).
    + exists 0%nat. cbn. by rewrite app_nil_r.
  - exists 0%nat. destruct (on_new_sample_keeps self sample) as (_ & _ & ->).
    by rewrite app_nil_r.
  - exists 0%nat. destruct (get_frame_blocking_keeps self) as (_ & _ & ->).
    by rewrite app_nil_r.
Qed.

Lemma run_done_writes events : ∀ st,
  ∃ n : nat, done_writes (fst (run st events)) = done_writes (fst st) ++ replicate n true.
Proof.
  induction events as [|e events IH]; intros st.
  - exists 0%nat. cbn. by rewrite app_nil_r.
  - cbn [run fold_left]. destruct (IH (step st e)) as [n Hn].
    destruct (step_done_writes st e) as [m Hm].
    exists (m + n)%nat. fold (run (step st e) events).
    by rewrite Hn, Hm, <- app_assoc, replicate_add.
Qed.

(** Only [start] asks the pipeline to play. *)
Lemma step_stopped st e :
  e ≠ Start → _pipeline (fst st) = NULL → _pipeline (fst (step st e)) = NULL.
Proof.
  destruct st as [self tr]. cbn [fst]. intros He Hp.
  destruct e as [| |message|sample|]; cbn [step fst]; [done| | | |].
  - by destruct (stop_spec self) as (_ & _ & -> & _).
  - destruct message as [|err debug|]; [| |done].
    + by destruct (on_bus_message_stops self EOS) as (_ & _ & -> & _).
    + by destruct (on_bus_message_stops self (ERROR_MSG err debug))
        as (_ & _ & -> & _).
  - by destruct (on_new_sample_keeps self sample) as (_ & -> & _).
  - by destruct (get_frame_blocking_keeps self) as (_ & -> & _).
Qed.

Lemma run_stopped events : ∀ st,
  Forall (λ e, e ≠ Start) events →
  _pipeline (fst st) = NULL → _pipeline (fst (run st events)) = NULL.
Proof.
  induction events as [|e events IH]; intros st Hev Hp; [done|].
  inversion Hev as [|? ? He Hev']; subst.
  cbn [run fold_left]. apply IH; [done|]. by apply step_stopped.
Qed.

(** ** C6: pulling a frame after [stop] *)

(** With nothing queued the consumer waits, whatever was stopped. *)
Lemma get_frame_blocking_empty self :
  Queue.items (_queue self) = [] → get_frame_blocking self = (Blocks, self).
Proof. intros He. unfold get_frame_blocking, Queue.get. by rewrite He. Qed.

Lemma get_after_any_stop_blocks self :
  Queue.items (_queue self) = [] →
  get_frame_blocking (snd (stop self)) = (Blocks, snd (stop self)).
Proof.
  intros He. apply get_frame_blocking_empty. by rewrite stop_queue.
Qed.

(** C6. The docstring of [get_frame_blocking] promises [queue.Empty]
    once [stop()] was called and the queue is empty; the call waits
    instead: after [start()] and [stop()] on a new source it neither
    returns nor raises. *)
Theorem get_after_stop_blocks :
  done stopped_source = true
  ∧ Queue.items (_queue stopped_source) = []
  ∧ get_frame_blocking stopped_source = (Blocks, stopped_source).
Proof. done. Qed.

(** ** C7: frames after the stop *)

(** C7, as stated, fails: after an error notification has set the done
    flag and stopped the pipeline, a new-sample callback still puts its
    frame into the queue. *)
Lemma push_after_error_is_accepted :
  done failed_source = true
  ∧ _pipeline failed_source = NULL
  ∧ Queue.items (_queue failed_source) = []
  ∧ _on_new_sample failed_source (tagged_sample x01)
    = (Returns OK, set_queue (Queue.Make 10 [tagged_frame x01]) failed_source)
  ∧ Queue.items (_queue (snd (_on_new_sample failed_source (tagged_sample x01))))
    ≠ Queue.items (_queue failed_source).
Proof. done. Qed.

(** C7, amended. Once [stop()], an end of stream or an error has been
    handled, the done flag is true and the pipeline is in the NULL
    state, and both stay so through every later [stop()], bus message,
    new-sample callback and frame pull.  The callback does not look at
    the done flag: a sample delivered afterwards is unpacked and queued
    as before, and dropped only when the queue is full. *)
Theorem stopped_stays_stopped
    (self : GStreamerFileSource) (tr : trace) (e : event) (events : list event) :
  (e = Stop ∨ e = BusMessage EOS
   ∨ ∃ err debug, e = BusMessage (ERROR_MSG err debug)) →
  Forall (λ e', e' ≠ Start) events →
  let st1 := step (self, tr) e in
  let st2 := run st1 events in
  _done (fst st1) = true ∧ _pipeline (fst st1) = NULL
  ∧ _done (fst st2) = true ∧ _pipeline (fst st2) = NULL
  ∧ (∀ sample frame, unpack sample = Continue frame →
       _on_new_sample (fst st2) sample
       = (Returns OK,
          match Queue.put_nowait (_queue (fst st2)) frame with
          | Some q => set_queue q (fst st2)
          | None => fst st2
          end))
  ∧ (∀ sample frame, unpack sample = Continue frame →
       Z.of_nat (Queue.qsize (_queue (fst st2))) < Queue.maxsize (_queue (fst st2)) →
       Queue.items (_queue (snd (_on_new_sample (fst st2) sample)))
       = Queue.items (_queue (fst st2)) ++ [frame]).
Proof.
  intros He Hev st1 st2.
  assert (H1 : _done (fst st1) = true ∧ _pipeline (fst st1) = NULL).
  { subst st1. destruct He as [->|[->|(err & debug & ->)]]; cbn [step fst].
    - by destruct (stop_spec self) as (_ & -> & -> & _).
    - by destruct (on_bus_message_stops self EOS) as (_ & -> & -> & _).
    - by destruct (on_bus_message_stops self (ERROR_MSG err debug))
        as (_ & -> & -> & _). }
  destruct H1 as [Hd Hp].
  split; [done|]. split; [done|].
  split; [by apply run_done|]. split; [by apply run_stopped|].
  split.
  - intros sample frame Hu. by apply on_new_sample_frame.
  - intros sample frame Hu Hroom.
    rewrite (on_new_sample_frame _ _ _ Hu), put_nowait_room by done. done.
Qed.

Lemma stopped_stays_stopped_witness :
  _done (fst (run (step (__init__ "video.mp4" 1 1 10, no_trace)
                     (BusMessage (ERROR_MSG "decode" "detail")))
                [NewSample (tagged_sample x01); GetFrame; Stop])) = true
  ∧ _pipeline (fst (run (step (__init__ "video.mp4" 1 1 10, no_trace)
                           (BusMessage (ERROR_MSG "decode" "detail")))
                      [NewSample (tagged_sample x01); GetFrame; Stop])) = NULL.
Proof.
  assert (H := stopped_stays_stopped (__init__ "video.mp4" 1 1 10) no_trace
                 (BusMessage (ERROR_MSG "decode" "detail"))
                 [NewSample (tagged_sample x01); GetFrame; Stop]
                 ltac:(right; right; eauto)
                 ltac:(repeat constructor; discriminate)).
  destruct H as (_ & _ & Hd & Hp & _). split; [exact Hd | exact Hp].
Defined.

(** ** C8: the done flag *)

(** C8, as stated, fails: handling one end of stream assigns the done
    flag twice, once in [_on_bus_message] and once in [stop()]. *)
Lemma done_is_written_twice_on_eos :
  done_writes ended_source = [true; true]
  ∧ length (done_writes ended_source) ≠ 1%nat.
Proof. done. Qed.

(** C8, amended. The done flag is one boolean, false at construction;
    once it is true no call resets it, and every assignment stores
    true.  It is not written exactly once: each [stop()] assigns it
    once, and each end-of-stream or error message assigns it twice. *)
Theorem done_flag_is_monotonic
    (self : GStreamerFileSource) (tr : trace) (events : list event) :
  _done self = true →
  let self' := fst (run (self, tr) events) in
  (∀ filename w h queue_size,
     _done (__init__ filename w h queue_size) = false
     ∧ done_writes (__init__ filename w h queue_size) = [])
  ∧ _done self' = true
  ∧ (∃ n : nat, done_writes self' = done_writes self ++ replicate n true)
  ∧ (∀ s, done_writes (snd (stop s)) = done_writes s ++ [true])
  ∧ (∀ s, done_writes (snd (_on_bus_message s EOS)) = done_writes s ++ [true; true])
  ∧ (∀ s err debug,
       done_writes (snd (_on_bus_message s (ERROR_MSG err debug)))
       = done_writes s ++ [true; true]).
Proof.
  intros Hd self'.
  split; [done|]. split; [by apply run_done|].
  split; [apply (run_done_writes events (self, tr))|].
  split; [intros s; by destruct (stop_spec s) as (_ & _ & _ & _ & ->)|].
  split.
  - intros s. by destruct (on_bus_message_stops s EOS) as (_ & _ & _ & ->).
  - intros s err debug.
    by destruct (on_bus_message_stops s (ERROR_MSG err debug)) as (_ & _ & _ & ->).
Qed.

Lemma done_flag_is_monotonic_witness :
  _done (fst (run (snd (stop (__init__ "video.mp4" 1 1 10)), no_trace)
                [Start; NewSample (tagged_sample x01); GetFrame; BusMessage OTHER]))
  = true.
Proof.
  assert (H := done_flag_is_monotonic (snd (stop (__init__ "video.mp4" 1 1 10))) no_trace
                 [Start; NewSample (tagged_sample x01); GetFrame; BusMessage OTHER]
                 ltac:(reflexivity)).
  destruct H as (_ & Hd & _). exact Hd.
Defined.

(** ** C9: [stop()] after the end of the stream *)

(** C9. After an end-of-stream message has been handled the done flag
    is true; it still is after any further calls, and every [stop()]
    made then returns without raising, leaves the pipeline in the NULL
    state and the done flag true. *)
Theorem stop_after_eos_is_safe
    (self : GStreamerFileSource) (tr : trace) (events : list event) :
  let self1 := snd (_on_bus_message self EOS) in
  let self2 := fst (run (self1, tr) events) in
  fst (_on_bus_message self EOS) = Returns tt
  ∧ _done self1 = true
  ∧ _pipeline self1 = NULL
  ∧ _done self2 = true
  ∧ fst (stop self2) = Returns tt
  ∧ _pipeline (snd (stop self2)) = NULL
  ∧ _done (snd (stop self2)) = true.
Proof.
  intros self1 self2.
  destruct (on_bus_message_stops self EOS) as (Hr & Hd & Hp & _); [done|].
  destruct (stop_spec self2) as (Hr2 & Hd2 & Hp2 & _).
  split; [done|]. split; [done|]. split; [done|].
  split; [by apply run_done|]. done.
Qed.

(** * Further properties of the bridge *)

(** ** The unpacker: when it makes a frame, and what it does otherwise *)

Lemma reshape_nonneg_inv a dims b :
  Forall (λ d, 0 ≤ d) dims →
  reshape a dims = Some b →
  shape b = map Z.to_nat dims ∧ flat b = flat a
  ∧ Z.of_nat (size a) = foldr Z.mul 1 dims.
Proof.
  intros Hd. unfold reshape.
  rewrite unknown_dims_nonneg, known_size_nonneg by done.
  destruct (Z.eqb_spec (Z.of_nat (size a)) (foldr Z.mul 1 dims)); [|done].
  by intros [= <-].
Qed.

(** What a frame out of [unpack_rows] tells about the sample. *)
Lemma unpack_rows_frame_inv (sample : RawSample) (row_stride : Z) frame :
  unpack_rows sample row_stride = Continue frame →
  buf_map_ok sample = true
  ∧ row_stride * height sample ≤ Z.of_nat (length (buf sample))
  ∧ width sample * 3 ≤ row_stride
  ∧ ∃ frame_2d, reshape frame_2d [height sample; width sample; 3] = Some frame.
Proof.
  unfold unpack_rows.
  destruct (buf_map_ok sample); cbn [negb]; [|done].
  unfold frombuffer, size at 1. cbn [flat].
  destruct (Z.ltb_spec (Z.of_nat (length (buf sample))) (row_stride * height sample));
    [done|].
  destruct (reshape _ [height sample; row_stride]) as [frame_padded|];
    cbn [or_raise mbind flow_bind]; [|done].
  destruct (Z.gtb_spec (width sample * 3) row_stride); [done|].
  destruct (slice_cols _ _) as [frame_2d|]; cbn [or_raise mbind flow_bind]; [|done].
  destruct (reshape frame_2d _) as [frame'|] eqn:Hr;
    cbn [or_raise mbind flow_bind]; [|done].
  intros [= <-]. unfold copy. repeat split; [lia..|]. by exists frame_2d.
Qed.

Lemma unpack_frame_inv (sample : RawSample) frame :
  unpack sample = Continue frame →
  ∃ row_stride, row_stride_of sample = Continue row_stride
                ∧ unpack_rows sample row_stride = Continue frame.
Proof.
  unfold unpack. destruct (row_stride_of sample) as [row_stride| |];
    cbn [mbind flow_bind]; [|done..].
  intros Hu. by exists row_stride.
Qed.

(** X1. Whatever the stride and wherever it comes from, a frame that
    the callback makes of a sample with non-negative width and height
    has the shape [(height, width, 3)] and [height*width*3] bytes, and
    it is made only of a mapped buffer of at least [row_stride*height]
    bytes with [width*3 <= row_stride]; the frame then is the packed
    rows of the buffer. *)
Theorem unpacked_frame_is_tight (sample : RawSample) (frame : ndarray) :
  0 ≤ width sample → 0 ≤ height sample →
  unpack sample = Continue frame →
  shape frame = [Z.to_nat (height sample); Z.to_nat (width sample); 3%nat]
  ∧ Z.of_nat (size frame) = height sample * width sample * 3
  ∧ buf_map_ok sample = true
  ∧ ∃ row_stride,
      row_stride_of sample = Continue row_stride
      ∧ width sample * 3 ≤ row_stride
      ∧ row_stride * height sample ≤ Z.of_nat (length (buf sample))
      ∧ flat frame = packed (Z.to_nat (width sample * 3)) (Z.to_nat row_stride)
                       (Z.to_nat (height sample)) (buf sample).
Proof.
  intros Hw Hh Hu.
  destruct (unpack_frame_inv _ _ Hu) as (row_stride & Hrs & Hur).
  destruct (unpack_rows_frame_inv _ _ _ Hur) as (Hok & Hlen & Hws & _).
  rewrite unpack_rows_ok in Hur by done. injection Hur as <-.
  cbn [shape flat]. split; [done|]. split.
  { unfold size; cbn [flat]. rewrite packed_length by nia. nia. }
  split; [done|]. by exists row_stride.
Qed.

Lemma unpacked_frame_is_tight_witness :
  shape (tagged_frame x07) = [1%nat; 1%nat; 3%nat]
  ∧ Z.of_nat (size (tagged_frame x07)) = 1 * 1 * 3.
Proof.
  assert (H := unpacked_frame_is_tight (tagged_sample x07) (tagged_frame x07)
                 ltac:(simpl; lia) ltac:(simpl; lia) ltac:(reflexivity)).
  destruct H as (Hs & Hn & _). split; [exact Hs | exact Hn].
Defined.

(** X2. Without a video meta, when the buffer holds [height] rows of
    [stride] bytes and fewer than [height] bytes more, the inferred
    stride is [stride] and the callback does exactly what it does for
    the same sample with that stride in its video meta. *)
Theorem inferred_stride_is_exact
    (self : GStreamerFileSource) (sample : RawSample) (stride : Z) :
  video_meta sample = None →
  0 < height sample →
  stride * height sample ≤ Z.of_nat (length (buf sample))
    < (stride + 1) * height sample →
  Z.of_nat (length (buf sample)) / height sample = stride
  ∧ unpack sample = unpack (with_video_meta stride sample)
  ∧ _on_new_sample self sample
    = _on_new_sample self (with_video_meta stride sample).
Proof.
  intros Hm Hh Hlen.
  assert (Hdiv : Z.of_nat (length (buf sample)) / height sample = stride).
  { symmetry. apply (Z.div_unique_pos _ _ _
      (Z.of_nat (length (buf sample)) - stride * height sample)); lia. }
  assert (Hu : unpack sample = unpack (with_video_meta stride sample)).
  { unfold unpack, row_stride_of. rewrite Hm. cbn [with_video_meta video_meta].
    cbn [mbind flow_bind].
    destruct (buf_map_ok sample) eqn:Hok; cbn [negb mbind flow_bind].
    - destruct (Z.eqb_spec (height sample) 0); [lia|].
      cbn [mbind flow_bind]. rewrite Hdiv.
      unfold unpack_rows. by cbn [with_video_meta width height buf buf_map_ok].
    - unfold unpack_rows. cbn [with_video_meta buf_map_ok]. by rewrite Hok. }
  split; [done|]. split; [done|].
  unfold _on_new_sample. by rewrite Hu.
Qed.

Lemma inferred_stride_is_exact_witness :
  unpack (sample_of 1 2 None 7) = unpack (with_video_meta 3 (sample_of 1 2 None 7)).
Proof.
  assert (H := inferred_stride_is_exact (__init__ "video.mp4" 1 2 10)
                 (sample_of 1 2 None 7) 3
                 ltac:(reflexivity) ltac:(simpl; lia)
                 ltac:(split; vm_compute; [discriminate | reflexivity])).
  destruct H as (_ & Hu & _). exact Hu.
Defined.

(** X3. A buffer that cannot be mapped makes the callback return
    [Gst.FlowReturn.ERROR] with nothing printed and the queue as it
    was, with or without a video meta and even for a height of zero:
    the mapping is tried before the stride is computed. *)
Theorem unmappable_buffer_is_refused
    (self : GStreamerFileSource) (sample : RawSample) :
  buf_map_ok sample = false →
  unpack sample = Return ERROR []
  ∧ fst (_on_new_sample self sample) = Returns ERROR
  ∧ attributes (snd (_on_new_sample self sample)) = attributes self.
Proof.
  intros Hok.
  assert (Hu : unpack sample = Return ERROR []).
  { unfold unpack, row_stride_of. rewrite Hok.
    destruct (video_meta sample); cbn [negb mbind flow_bind]; [|done].
    by apply unpack_rows_unmapped. }
  split; [done|]. rewrite (on_new_sample_bail _ _ _ _ Hu). cbn [fst snd].
  split; [done|]. unfold attributes, print. cbn. by rewrite app_nil_r.
Qed.

Lemma unmappable_buffer_is_refused_witness :
  fst (_on_new_sample (__init__ "video.mp4" 1 0 10)
         {| width := 1; height := 0; video_meta := None;
            buf := [x01; x02; x03]; buf_map_ok := false |})
  = Returns ERROR.
Proof.
  assert (H := unmappable_buffer_is_refused (__init__ "video.mp4" 1 0 10)
                 {| width := 1; height := 0; video_meta := None;
                    buf := [x01; x02; x03]; buf_map_ok := false |}
                 ltac:(reflexivity)).
  destruct H as (_ & Hr & _). exact Hr.
Defined.

(** X4. A sample of height zero whose buffer maps: without a video
    meta the callback raises [ZeroDivisionError] and changes nothing;
    with a video meta whose stride is at least [width*3] it puts an
    empty frame of shape [(0, width, 3)] into the queue when there is
    room. *)
Theorem zero_height_sample
    (self : GStreamerFileSource) (sample : RawSample) :
  height sample = 0 →
  buf_map_ok sample = true →
  (video_meta sample = None →
   _on_new_sample self sample = (Raises ZeroDivisionError, self))
  ∧ (∀ stride, video_meta sample = Some stride →
       0 ≤ width sample → width sample * 3 ≤ stride →
       unpack sample = Continue (NdArray [0%nat; Z.to_nat (width sample); 3%nat] [])
       ∧ fst (_on_new_sample self sample) = Returns OK).
Proof.
  intros Hh Hok. split.
  - intros Hm. unfold _on_new_sample, unpack, row_stride_of.
    by rewrite Hm, Hok, Hh.
  - intros stride Hm Hw Hws.
    assert (Hu : unpack sample
                 = Continue (NdArray [0%nat; Z.to_nat (width sample); 3%nat] [])).
    { rewrite (unpack_with_meta _ _ Hm), unpack_rows_ok by (done || rewrite ?Hh; lia).
      by rewrite Hh. }
    split; [done|]. by rewrite (on_new_sample_frame _ _ _ Hu).
Qed.

Lemma zero_height_sample_witness :
  _on_new_sample (__init__ "video.mp4" 1 0 10) (sample_of 1 0 None 7)
  = (Raises ZeroDivisionError, __init__ "video.mp4" 1 0 10).
Proof.
  assert (H := zero_height_sample (__init__ "video.mp4" 1 0 10) (sample_of 1 0 None 7)
                 ltac:(reflexivity) ltac:(reflexivity)).
  destruct H as (Hr & _). apply Hr. reflexivity.
Defined.

(** ** The queue through arbitrary runs *)

(** Every frame the callback made is in exactly one place: with the
    consumer, in the queue, or dropped. *)
Lemma step_accounts st e :
  produced (snd st)
    ≡ₚ consumed (snd st) ++ Queue.items (_queue (fst st)) ++ dropped (snd st) →
  produced (snd (step st e))
    ≡ₚ consumed (snd (step st e)) ++ Queue.items (_queue (fst (step st e)))
       ++ dropped (snd (step st e)).
Proof.
  destruct st as [self tr]. cbn [fst snd]. intros Hp.
  destruct e as [| |message|sample|]; cbn [step fst snd].
  - by rewrite start_queue.
  - by rewrite stop_queue.
  - by rewrite on_bus_message_queue.
  - unfold _on_new_sample.
    destruct (unpack sample) as [frame|r out|e]; cbn [fst snd]; [|done..].
    unfold Queue.put_nowait.
    destruct (_ && _); cbn [snd produced dropped consumed _queue set_queue Queue.items].
    + rewrite Hp, !app_assoc. done.
    + rewrite Hp. rewrite <- !app_assoc.
      apply Permutation_app_head, Permutation_app_head, Permutation_app_comm.
  - destruct (get_frame_blocking_cases self) as [[Hempty ->]|(frame & rest & Hi & -> & ->)];
      cbn [fst snd produced dropped consumed]; [done|].
    rewrite Hi in Hp. rewrite Hp, <- !app_assoc. done.
Qed.

Lemma run_accounts events : ∀ st,
  produced (snd st)
    ≡ₚ consumed (snd st) ++ Queue.items (_queue (fst st)) ++ dropped (snd st) →
  produced (snd (run st events))
    ≡ₚ consumed (snd (run st events)) ++ Queue.items (_queue (fst (run st events)))
       ++ dropped (snd (run st events)).
Proof.
  induction events as [|e events IH]; intros st Hst; [done|].
  cbn [run fold_left]. apply IH. by apply step_accounts.
Qed.

(** X5. Over every sequence of calls on a source that starts with an
    empty queue, the frames produced are, up to order, the frames
    consumed, the frames waiting in the queue and the frames dropped:
    no frame is lost or doubled, and the counts add up. *)
Theorem frames_are_accounted_for
    (self : GStreamerFileSource) (events : list event) :
  Queue.items (_queue self) = [] →
  let st := run (self, no_trace) events in
  produced (snd st)
    ≡ₚ consumed (snd st) ++ Queue.items (_queue (fst st)) ++ dropped (snd st)
  ∧ length (produced (snd st))
    = (length (consumed (snd st)) + Queue.qsize (_queue (fst st))
       + length (dropped (snd st)))%nat.
Proof.
  intros Hempty st.
  assert (Hp : produced (snd st)
    ≡ₚ consumed (snd st) ++ Queue.items (_queue (fst st)) ++ dropped (snd st)).
  { apply run_accounts. cbn. by rewrite Hempty. }
  split; [done|]. rewrite Hp, !length_app. unfold Queue.qsize. lia.
Qed.

Lemma frames_are_accounted_for_witness :
  length (produced (snd example_run))
  = (length (consumed (snd example_run)) + Queue.qsize (_queue (fst example_run))
     + length (dropped (snd example_run)))%nat.
Proof.
  assert (H := frames_are_accounted_for (__init__ "video.mp4" 1 1 2)
                 [Start; NewSample (tagged_sample x01); NewSample (tagged_sample x02);
                  NewSample (tagged_sample x03); GetFrame;
                  NewSample (tagged_sample x04); GetFrame]
                 ltac:(reflexivity)).
  destruct H as (_ & H). exact H.
Defined.

(** No call changes [maxsize], and none lets a bounded queue grow
    beyond it. *)
Lemma step_within_capacity st e :
  Queue.maxsize (_queue (fst (step st e))) = Queue.maxsize (_queue (fst st))
  ∧ (0 < Queue.maxsize (_queue (fst st)) →
     Z.of_nat (Queue.qsize (_queue (fst st))) ≤ Queue.maxsize (_queue (fst st)) →
     Z.of_nat (Queue.qsize (_queue (fst (step st e))))
     ≤ Queue.maxsize (_queue (fst st))).
Proof.
  destruct st as [self tr]. cbn [fst].
  destruct e as [| |message|sample|]; cbn [step fst].
  - by rewrite start_queue.
  - by rewrite stop_queue.
  - by rewrite on_bus_message_queue.
  - unfold _on_new_sample.
    destruct (unpack sample) as [frame|r out|e]; cbn [fst snd]; [|done..].
    unfold Queue.put_nowait, Queue.qsize.
    destruct (Z.ltb_spec 0 (Queue.maxsize (_queue self)));
      destruct (Z.leb_spec (Queue.maxsize (_queue self))
                  (Z.of_nat (length (Queue.items (_queue self)))));
      cbn [andb snd _queue set_queue Queue.maxsize Queue.items];
      (split; [done|]); intros; rewrite ?length_app; cbn [length]; lia.
  - destruct (get_frame_blocking_cases self) as [[Hempty ->]|(frame & rest & Hi & Hr & Hq)];
      [done|].
    unfold get_frame_blocking, Queue.get in *. rewrite Hi in *.
    cbn [fst snd _queue set_queue Queue.maxsize Queue.items Queue.qsize].
    split; [done|]. unfold Queue.qsize. rewrite ?Hi.
    cbn [length Queue.items]. lia.
Qed.

Lemma run_within_capacity events : ∀ st,
  Queue.maxsize (_queue (fst (run st events))) = Queue.maxsize (_queue (fst st))
  ∧ (0 < Queue.maxsize (_queue (fst st)) →
     Z.of_nat (Queue.qsize (_queue (fst st))) ≤ Queue.maxsize (_queue (fst st)) →
     Z.of_nat (Queue.qsize (_queue (fst (run st events))))
     ≤ Queue.maxsize (_queue (fst st))).
Proof.
  induction events as [|e events IH]; intros st; [done|].
  cbn [run fold_left]. fold (run (step st e) events).
  destruct (IH (step st e)) as [Hm Hq].
  destruct (step_within_capacity st e) as [Hm1 Hq1].
  rewrite Hm, Hm1. split; [done|]. intros Hpos Hle.
  rewrite Hm1 in Hq. apply Hq; [done|]. by apply Hq1.
Qed.

(** X6. A source built with a positive [queue_size] never holds more
    than [queue_size] frames, whatever calls are made on it, and its
    [maxsize] stays [queue_size]. *)
Theorem queue_never_exceeds_capacity
    (filename : string) (w h queue_size : Z) (events : list event) :
  0 < queue_size →
  let self := fst (run (__init__ filename w h queue_size, no_trace) events) in
  Queue.maxsize (_queue self) = queue_size
  ∧ Z.of_nat (Queue.qsize (_queue self)) ≤ queue_size.
Proof.
  intros Hpos self.
  destruct (run_within_capacity events (__init__ filename w h queue_size, no_trace))
    as [Hm Hq].
  split; [exact Hm|]. apply Hq; cbn; lia.
Qed.

Lemma queue_never_exceeds_capacity_witness :
  Z.of_nat (Queue.qsize (_queue (fst example_run))) ≤ 2.
Proof.
  assert (H := queue_never_exceeds_capacity "video.mp4" 1 1 2
                 [Start; NewSample (tagged_sample x01); NewSample (tagged_sample x02);
                  NewSample (tagged_sample x03); GetFrame;
                  NewSample (tagged_sample x04); GetFrame]
                 ltac:(lia)).
  destruct H as (_ & H). exact H.
Defined.

Lemma step_unbounded_no_drop st e :
  Queue.maxsize (_queue (fst st)) ≤ 0 → dropped (snd st) = [] →
  dropped (snd (step st e)) = [].
Proof.
  destruct st as [self tr]. cbn [fst snd]. intros Hm Hd.
  destruct e as [| |message|sample|]; cbn [step snd]; [done..| |].
  - destruct (unpack sample) as [frame|r out|e]; [|done..].
    by rewrite put_nowait_unbounded.
  - by destruct (fst (get_frame_blocking self)).
Qed.

Lemma run_unbounded_no_drop events : ∀ st,
  Queue.maxsize (_queue (fst st)) ≤ 0 → dropped (snd st) = [] →
  dropped (snd (run st events)) = [].
Proof.
  induction events as [|e events IH]; intros st Hm Hd; [done|].
  cbn [run fold_left]. apply IH.
  - by rewrite (proj1 (step_within_capacity st e)).
  - by apply step_unbounded_no_drop.
Qed.

(** X7. A source built with [queue_size <= 0] has an unbounded queue:
    over every sequence of calls no frame is dropped, and the frames
    consumed, followed by the frames that wait, are all the frames
    produced, in the order of production. *)
Theorem unbounded_queue_never_drops
    (filename : string) (w h queue_size : Z) (events : list event) :
  queue_size ≤ 0 →
  let st := run (__init__ filename w h queue_size, no_trace) events in
  dropped (snd st) = []
  ∧ consumed (snd st) ++ Queue.items (_queue (fst st)) = produced (snd st).
Proof.
  intros Hq st.
  assert (Hd : dropped (snd st) = []) by by apply run_unbounded_no_drop.
  split; [done|].
  assert (Hin : in_order st) by by apply run_in_order.
  destruct Hin as [_ Heq]. by apply Heq.
Qed.

Lemma unbounded_queue_never_drops_witness :
  dropped (snd (run (__init__ "video.mp4" 1 1 0, no_trace)
                  [NewSample (tagged_sample x01); NewSample (tagged_sample x02);
                   NewSample (tagged_sample x03)])) = [].
Proof.
  assert (H := unbounded_queue_never_drops "video.mp4" 1 1 0
                 [NewSample (tagged_sample x01); NewSample (tagged_sample x02);
                  NewSample (tagged_sample x03)]
                 ltac:(lia)).
  destruct H as (H & _). exact H.
Defined.

(** ** Pulling frames *)

Lemma get_frame_blocking_cons self frame rest :
  Queue.items (_queue self) = frame :: rest →
  get_frame_blocking self
  = (Returns frame, set_queue (Queue.Make (Queue.maxsize (_queue self)) rest) self).
Proof. intros Hi. unfold get_frame_blocking, Queue.get. by rewrite Hi. Qed.

(** [k] pulls in a row take the first [k] waiting frames, in order. *)
Lemma run_gets k : ∀ self tr,
  let st := run (self, tr) (replicate k GetFrame) in
  Queue.items (_queue (fst st)) = drop k (Queue.items (_queue self))
  ∧ consumed (snd st) = consumed tr ++ take k (Queue.items (_queue self))
  ∧ produced (snd st) = produced tr
  ∧ dropped (snd st) = dropped tr
  ∧ _done (fst st) = _done self
  ∧ _pipeline (fst st) = _pipeline self.
Proof.
  induction k as [|k IH]; intros self tr.
  - cbn. by rewrite app_nil_r.
  - cbn [replicate run fold_left]. fold (run (step (self, tr) GetFrame) (replicate k GetFrame)).
    cbn [step].
    destruct (Queue.items (_queue self)) as [|frame rest] eqn:Hi.
    + rewrite (get_frame_blocking_empty _ Hi). cbn [fst snd].
      destruct (IH self tr) as (H1 & H2 & H3 & H4 & H5 & H6).
      rewrite H1, H2, H3, H4, H5, H6, Hi. by rewrite drop_nil, take_nil.
    + rewrite (get_frame_blocking_cons _ _ _ Hi). cbn [fst snd].
      match goal with |- context [run (?s, ?t) _] =>
        destruct (IH s t) as (H1 & H2 & H3 & H4 & H5 & H6) end.
      rewrite H1, H2, H3, H4, H5, H6. cbn. by rewrite <- app_assoc.
Qed.

(** X8. [stop()] keeps the queue: the frames that wait when the source
    is stopped are still handed out by the next pulls, the first [k] of
    them by [k] pulls and in their order, with the done flag true all
    along; once they are used up the next pull waits. *)
Theorem queued_frames_survive_stop
    (self : GStreamerFileSource) (tr : trace) (k : nat) :
  let st := run (snd (stop self), tr) (replicate k GetFrame) in
  consumed (snd st) = consumed tr ++ take k (Queue.items (_queue self))
  ∧ Queue.items (_queue (fst st)) = drop k (Queue.items (_queue self))
  ∧ _done (fst st) = true
  ∧ ((length (Queue.items (_queue self)) ≤ k)%nat →
     get_frame_blocking (fst st) = (Blocks, fst st)).
Proof.
  intros st.
  destruct (run_gets k (snd (stop self)) tr) as (H1 & H2 & _ & _ & H5 & _).
  fold st in H1, H2, H5. rewrite stop_queue in H1, H2.
  destruct (stop_spec self) as (_ & Hd & _).
  split; [done|]. split; [done|]. split; [by rewrite H5|].
  intros Hk. apply get_frame_blocking_empty. rewrite H1. by apply drop_ge.
Qed.

(** An empty queue takes an item, whatever its [maxsize]. *)
Lemma put_nowait_empty {A} (q : Queue.t A) x :
  Queue.items q = [] →
  Queue.put_nowait q x = Some (Queue.Make (Queue.maxsize q) [x]).
Proof.
  intros Hempty. unfold Queue.put_nowait, Queue.qsize. rewrite Hempty.
  cbn [length app].
  destruct (Z.ltb_spec 0 (Queue.maxsize q)); [|done].
  by destruct (Z.leb_spec (Queue.maxsize q) (Z.of_nat 0)); [lia|].
Qed.

(** X9. On an empty queue the frame of a delivered sample always is
    taken, whatever [queue_size] the source was built with, and the
    next pull returns that very frame and leaves the source as it was
    before the delivery. *)
Theorem delivered_frame_is_pulled_next
    (self : GStreamerFileSource) (sample : RawSample) (frame : ndarray) :
  Queue.items (_queue self) = [] →
  unpack sample = Continue frame →
  let self1 := snd (_on_new_sample self sample) in
  fst (_on_new_sample self sample) = Returns OK
  ∧ Queue.items (_queue self1) = [frame]
  ∧ fst (get_frame_blocking self1) = Returns frame
  ∧ attributes (snd (get_frame_blocking self1)) = attributes self.
Proof.
  intros Hempty Hu self1. subst self1.
  rewrite (on_new_sample_frame _ _ _ Hu). cbn [fst].
  rewrite (put_nowait_empty _ _ Hempty). cbn [snd]. split; [done|]. split; [done|].
  unfold get_frame_blocking, Queue.get. cbn. split; [done|].
  unfold attributes. cbn. destruct (_queue self) as [m items] eqn:Hq.
  cbn in Hempty. by rewrite Hempty.
Qed.

Lemma delivered_frame_is_pulled_next_witness :
  fst (get_frame_blocking
         (snd (_on_new_sample (__init__ "video.mp4" 1 1 0) (tagged_sample x05))))
  = Returns (tagged_frame x05).
Proof.
  assert (H := delivered_frame_is_pulled_next (__init__ "video.mp4" 1 1 0)
                 (tagged_sample x05) (tagged_frame x05)
                 ltac:(reflexivity) ltac:(reflexivity)).
  destruct H as (_ & _ & H & _). exact H.
Defined.

(** ** The lifecycle calls *)

(** X10. [stop()] always returns, and leaves the source with the done
    flag true, the pipeline in the NULL state and the main loop not
    running, all else untouched; a second [stop()] changes none of the
    attributes. *)
Theorem stop_is_idempotent (self : GStreamerFileSource) :
  fst (stop self) = Returns tt
  ∧ attributes (snd (stop self))
    = (_filename self, _width self, _height self, _queue self, true, NULL, false,
       _thread self, stdout self)
  ∧ fst (stop (snd (stop self))) = Returns tt
  ∧ attributes (snd (stop (snd (stop self)))) = attributes (snd (stop self)).
Proof.
  destruct self as [f w h q d p l t out dw]. by destruct l.
Qed.

(** X11. An end-of-stream message leaves the source with the very
    attributes that [stop()] gives it; an error message does the same
    and prints the error; any other message changes nothing. *)
Theorem bus_message_acts_as_stop (self : GStreamerFileSource) :
  attributes (snd (_on_bus_message self EOS)) = attributes (snd (stop self))
  ∧ (∀ err debug,
       attributes (snd (_on_bus_message self (ERROR_MSG err debug)))
       = attributes (snd (stop (print [GStreamerERROR err debug] self)))
       ∧ stdout (snd (_on_bus_message self (ERROR_MSG err debug)))
         = stdout self ++ [GStreamerERROR err debug]
       ∧ _queue (snd (_on_bus_message self (ERROR_MSG err debug))) = _queue self)
  ∧ _on_bus_message self OTHER = (Returns tt, self).
Proof.
  split; [|split; [|done]].
  - destruct self as [f w h q d p l t out dw]. by destruct l.
  - intros err debug. destruct self as [f w h q d p l t out dw]. by destruct l.
Qed.

Lemma step_thread st e :
  _thread (fst st) = true → _thread (fst (step st e)) = true.
Proof.
  destruct st as [self tr]. cbn [fst]. intros Ht.
  destruct e as [| |message|sample|]; cbn [step fst].
  - unfold start. cbn. by rewrite Ht.
  - unfold stop. cbn. by destruct (_loop self) eqn:Hloop; cbn.
  - destruct message as [|err debug|]; [| |done];
      unfold _on_bus_message, stop; cbn; by destruct (_loop self) eqn:Hloop; cbn.
  - unfold _on_new_sample.
    destruct (unpack sample); [by destruct (Queue.put_nowait _ _)|done..].
  - unfold get_frame_blocking. by destruct (Queue.get _) as [[frame q]|].
Qed.

Lemma run_thread events : ∀ st,
  _thread (fst st) = true → _thread (fst (run st events)) = true.
Proof.
  induction events as [|e events IH]; intros st Ht; [done|].
  cbn [run fold_left]. apply IH. by apply step_thread.
Qed.

(** X12. A source can be started once.  The first [start()] on a new
    source returns; once the thread has been started then, whatever
    calls follow, every further [start()] raises [RuntimeError], and it
    does so after it has set the pipeline to PLAYING, with the done
    flag left as it is. *)
Theorem start_works_once
    (self : GStreamerFileSource) (tr : trace) (events : list event) :
  _thread self = true →
  let self' := fst (run (self, tr) events) in
  (∀ filename w h queue_size,
     fst (start (__init__ filename w h queue_size)) = Returns tt
     ∧ _thread (snd (start (__init__ filename w h queue_size))) = true
     ∧ _pipeline (snd (start (__init__ filename w h queue_size))) = PLAYING)
  ∧ fst (start self') = Raises RuntimeError
  ∧ _pipeline (snd (start self')) = PLAYING
  ∧ _done (snd (start self')) = _done self'
  ∧ _queue (snd (start self')) = _queue self'.
Proof.
  intros Ht self'. split; [done|].
  assert (Ht' : _thread self' = true) by by apply run_thread.
  unfold start. cbn. by rewrite Ht'.
Qed.

(** Started, stopped, started again: the call raises, and leaves a
    source that is done with a pipeline set to PLAYING. *)
Lemma start_works_once_witness :
  fst (start stopped_source) = Raises RuntimeError
  ∧ _pipeline (snd (start stopped_source)) = PLAYING
  ∧ _done (snd (start stopped_source)) = true.
Proof.
  assert (H := start_works_once (snd (start (__init__ "video.mp4" 4 2 default_queue_size)))
                 no_trace [Stop] ltac:(reflexivity)).
  destruct H as (_ & H1 & H2 & H3 & _).
  split; [exact H1|]. split; [exact H2 | exact H3].
Defined.

(** ** Deliveries and pulls together *)

Lemma run_app st events1 events2 :
  run st (events1 ++ events2) = run (run st events1) events2.
Proof. unfold run. apply fold_left_app. Qed.

(** While there is room, deliveries append to the queue. *)
Lemma run_new_samples_room samples frames : ∀ self tr,
  Forall2 (λ sample frame, unpack sample = Continue frame) samples frames →
  (Queue.maxsize (_queue self) ≤ 0
   ∨ Z.of_nat (Queue.qsize (_queue self) + length frames)
     ≤ Queue.maxsize (_queue self)) →
  let st := run (self, tr) (map NewSample samples) in
  Queue.items (_queue (fst st)) = Queue.items (_queue self) ++ frames
  ∧ produced (snd st) = produced tr ++ frames
  ∧ dropped (snd st) = dropped tr
  ∧ consumed (snd st) = consumed tr.
Proof.
  intros self tr HF. revert self tr.
  induction HF as [|sample frame samples frames Hu _ IH]; intros self tr Hroom.
  - cbn. by rewrite !app_nil_r.
  - cbn [map run fold_left]. fold (run (step (self, tr) (NewSample sample))
                                     (map NewSample samples)).
    cbn [step]. rewrite Hu, (on_new_sample_frame _ _ _ Hu).
    assert (Hput : Queue.put_nowait (_queue self) frame
              = Some (Queue.Make (Queue.maxsize (_queue self))
                        (Queue.items (_queue self) ++ [frame]))).
    { destruct Hroom as [Hun|Hroom]; [by apply put_nowait_unbounded|].
      apply put_nowait_room. cbn [length] in Hroom. lia. }
    rewrite Hput. cbn [snd].
    match goal with |- context [run (?s, ?t) _] =>
      destruct (IH s t) as (H1 & H2 & H3 & H4) end.
    { cbn [_queue set_queue Queue.maxsize].
      destruct Hroom as [Hun|Hroom]; [by left|right].
      unfold Queue.qsize in *. cbn [Queue.items].
      rewrite length_app. cbn [length] in *. lia. }
    rewrite H1, H2, H3, H4. cbn. by rewrite <- !app_assoc.
Qed.

(** X13. From the buffer to the consumer: when the samples delivered to
    a source with an empty queue all unpack, and the queue is unbounded
    or has room for them all, then as many pulls hand the consumer
    exactly their frames, in order; nothing is dropped and the queue is
    empty again. *)
Theorem frames_reach_the_consumer
    (self : GStreamerFileSource)
    (samples : list RawSample) (frames : list ndarray) :
  Queue.items (_queue self) = [] →
  Forall2 (λ sample frame, unpack sample = Continue frame) samples frames →
  (Queue.maxsize (_queue self) ≤ 0
   ∨ Z.of_nat (length frames) ≤ Queue.maxsize (_queue self)) →
  let st := run (self, no_trace)
              (map NewSample samples ++ replicate (length samples) GetFrame) in
  consumed (snd st) = frames
  ∧ produced (snd st) = frames
  ∧ dropped (snd st) = []
  ∧ Queue.items (_queue (fst st)) = [].
Proof.
  intros Hempty HF Hroom st. subst st. rewrite run_app.
  destruct (run_new_samples_room samples frames self no_trace HF)
    as (H1 & H2 & H3 & H4).
  { unfold Queue.qsize. rewrite Hempty. cbn [length]. by rewrite Nat.add_0_l. }
  destruct (run (self, no_trace) (map NewSample samples)) as [self1 tr1].
  cbn [fst snd] in H1, H2, H3, H4. rewrite Hempty in H1. cbn in H1, H2, H3, H4.
  destruct (run_gets (length samples) self1 tr1) as (G1 & G2 & G3 & G4 & _).
  rewrite G1, G2, G3, G4, H1, H2, H3, H4. cbn [app].
  rewrite (Forall2_length _ _ _ HF).
  by rewrite take_ge, drop_ge by lia.
Qed.

Lemma frames_reach_the_consumer_witness :
  consumed (snd (run (__init__ "video.mp4" 1 1 2, no_trace)
                   (map NewSample [tagged_sample x01; tagged_sample x02]
                    ++ replicate 2 GetFrame)))
  = [tagged_frame x01; tagged_frame x02].
Proof.
  assert (H := frames_reach_the_consumer (__init__ "video.mp4" 1 1 2)
                 [tagged_sample x01; tagged_sample x02]
                 [tagged_frame x01; tagged_frame x02]
                 ltac:(reflexivity) ltac:(repeat constructor)
                 ltac:(right; vm_compute; discriminate)).
  destruct H as (H & _). exact H.
Defined.

(** One delivery followed by one pull, on an empty queue. *)
Lemma deliver_and_pull_one self tr sample :
  Queue.items (_queue self) = [] →
  let st := run (self, tr) [NewSample sample; GetFrame] in
  Queue.items (_queue (fst st)) = []
  ∧ Queue.maxsize (_queue (fst st)) = Queue.maxsize (_queue self)
  ∧ consumed (snd st) = consumed tr ++ unpacked [sample]
  ∧ produced (snd st) = produced tr ++ unpacked [sample]
  ∧ dropped (snd st) = dropped tr.
Proof.
  intros Hempty. cbn [run fold_left step]. unfold unpacked. cbn [omap].
  destruct (unpack sample) as [frame|r out|e] eqn:Hu.
  - rewrite (on_new_sample_frame _ _ _ Hu), (put_nowait_empty _ _ Hempty).
    cbn [snd]. unfold get_frame_blocking, Queue.get. cbn. by rewrite ?Hu.
  - rewrite (on_new_sample_bail _ _ _ _ Hu). cbn [snd].
    rewrite get_frame_blocking_empty by done. cbn. by rewrite ?Hu, !app_nil_r.
  - unfold _on_new_sample. rewrite Hu. cbn [snd].
    rewrite get_frame_blocking_empty by done. cbn. by rewrite ?Hu, !app_nil_r.
Qed.

Lemma run_deliver_and_pull samples : ∀ self tr,
  Queue.items (_queue self) = [] →
  let st := run (self, tr) (deliver_and_pull samples) in
  Queue.items (_queue (fst st)) = []
  ∧ consumed (snd st) = consumed tr ++ unpacked samples
  ∧ produced (snd st) = produced tr ++ unpacked samples
  ∧ dropped (snd st) = dropped tr.
Proof.
  induction samples as [|sample samples IH]; intros self tr Hempty.
  - cbn. by rewrite !app_nil_r.
  - unfold deliver_and_pull. cbn [flat_map].
    fold (deliver_and_pull samples).
    rewrite run_app.
    destruct (deliver_and_pull_one self tr sample Hempty) as (H1 & _ & H3 & H4 & H5).
    destruct (run (self, tr) [NewSample sample; GetFrame]) as [self1 tr1].
    cbn [fst snd] in H1, H3, H4, H5.
    destruct (IH self1 tr1 H1) as (I1 & I2 & I3 & I4).
    rewrite I1, I2, I3, I4, H3, H4, H5.
    assert (Hun : unpacked (sample :: samples) = unpacked [sample] ++ unpacked samples).
    { unfold unpacked. cbn. by destruct (unpack sample). }
    by rewrite Hun, !app_assoc.
Qed.

(** X14. A consumer that pulls after every delivery loses nothing: on
    a source with an empty queue, whatever its [queue_size], no frame
    is dropped, and the consumer gets, in order, the frame of every
    sample that unpacks; rejected samples give none. *)
Theorem keeping_pace_loses_nothing
    (self : GStreamerFileSource) (samples : list RawSample) :
  Queue.items (_queue self) = [] →
  let st := run (self, no_trace) (deliver_and_pull samples) in
  consumed (snd st) = unpacked samples
  ∧ produced (snd st) = unpacked samples
  ∧ dropped (snd st) = []
  ∧ Queue.items (_queue (fst st)) = [].
Proof.
  intros Hempty st.
  destruct (run_deliver_and_pull samples self no_trace Hempty) as (H1 & H2 & H3 & H4).
  done.
Qed.

Lemma keeping_pace_loses_nothing_witness :
  consumed (snd (run (__init__ "video.mp4" 1 1 1, no_trace)
                   (deliver_and_pull [tagged_sample x01; sample_of 4 2 (Some 10) 32;
                                      tagged_sample x02])))
  = [tagged_frame x01; tagged_frame x02].
Proof.
  assert (H := keeping_pace_loses_nothing (__init__ "video.mp4" 1 1 1)
                 [tagged_sample x01; sample_of 4 2 (Some 10) 32; tagged_sample x02]
                 ltac:(reflexivity)).
  destruct H as (H & _). exact H.
Defined.

(** ** The consumer loop *)

(** On a source that is not done and on which no callback runs, the
    loop pulls what waits and then waits itself. *)
Lemma main_loop_not_done imencode_ok items : ∀ fuel source sent,
  done source = false →
  Queue.items (_queue source) = items →
  (length items < fuel)%nat →
  main_loop imencode_ok fuel source sent
  = Some (Blocks,
          set_queue (Queue.Make (Queue.maxsize (_queue source)) []) source,
          sent ++ List.filter imencode_ok items).
Proof.
  induction items as [|frame rest IH]; intros fuel source sent Hd Hi Hf.
  - destruct fuel as [|fuel]; [cbn in Hf; lia|]. cbn [main_loop].
    rewrite Hd, (get_frame_blocking_empty _ Hi). cbn. rewrite app_nil_r.
    do 3 f_equal. destruct source as [f w h q d p l t out dw].
    destruct q as [m its]. cbn in Hi. by rewrite Hi.
  - destruct fuel as [|fuel]; [cbn in Hf; lia|]. cbn [main_loop].
    rewrite Hd, (get_frame_blocking_cons _ _ _ Hi). cbn [List.filter].
    destruct (imencode_ok frame).
    + rewrite (IH fuel _ (sent ++ [frame])); [|done|done|cbn in Hf; lia].
      cbn. by rewrite <- app_assoc.
    + rewrite (IH fuel _ sent); [|done|done|cbn in Hf; lia]. done.
Qed.

(** X15. When the done flag is not set and no callback runs, the
    consumer loop of [main] pulls every frame that waits, in order,
    sends those that cv2 encodes, and then waits in
    [get_frame_blocking]: it does not end, and the [source.stop()]
    after it is not reached. *)
Theorem main_waits_when_not_done
    (imencode_ok : ndarray → bool) (fuel : nat) (source : GStreamerFileSource) :
  done source = false →
  (Queue.qsize (_queue source) < fuel)%nat →
  main_from imencode_ok fuel source
  = Some (Blocks,
          set_queue (Queue.Make (Queue.maxsize (_queue source)) []) source,
          List.filter imencode_ok (Queue.items (_queue source))).
Proof.
  intros Hd Hf. unfold main_from.
  by rewrite (main_loop_not_done imencode_ok (Queue.items (_queue source))).
Qed.

Lemma main_waits_when_not_done_witness :
  main_from (λ _, true) 3 playing_with_two_queued
  = Some (Blocks,
          set_queue (Queue.Make 10 []) playing_with_two_queued,
          [tagged_frame x01; tagged_frame x02]).
Proof.
  apply (main_waits_when_not_done (λ _, true) 3 playing_with_two_queued);
    [reflexivity | vm_compute; lia].
Defined.

(** X16. Frames that wait when the stream ends are not delivered: when
    an end-of-stream or error message has been handled, the consumer
    loop of [main] ends at its next test of the done flag without a
    pull, [main] calls [source.stop()], and the frames are still in the
    queue afterwards. *)
Theorem frames_waiting_at_the_end_are_left
    (imencode_ok : ndarray → bool) (fuel : nat)
    (self : GStreamerFileSource) (message : Message) :
  (0 < fuel)%nat →
  message ≠ OTHER →
  let source := snd (_on_bus_message self message) in
  main_from imencode_ok fuel source = Some (Returns tt, snd (stop source), [])
  ∧ Queue.items (_queue (snd (stop source))) = Queue.items (_queue self).
Proof.
  intros Hf Hm source.
  destruct (on_bus_message_stops self message Hm) as (_ & Hd & _).
  split.
  - destruct fuel as [|fuel]; [lia|].
    unfold main_from. cbn [main_loop]. unfold done. fold source in Hd.
    rewrite Hd. by destruct (stop_spec source) as (-> & _).
  - subst source. by rewrite stop_queue, on_bus_message_queue.
Qed.

Lemma frames_waiting_at_the_end_are_left_witness :
  main_from (λ _, true) 5 ended_with_two_queued
  = Some (Returns tt, snd (stop ended_with_two_queued), [])
  ∧ Queue.items (_queue (snd (stop ended_with_two_queued)))
    = [tagged_frame x01; tagged_frame x02].
Proof.
  apply (frames_waiting_at_the_end_are_left (λ _, true) 5
           playing_with_two_queued EOS); [lia | discriminate].
Defined.

(** ** Which frames a full queue turns away *)

Lemma run_new_samples_dropped samples frames : ∀ self tr,
  Forall2 (λ sample frame, unpack sample = Continue frame) samples frames →
  0 < Queue.maxsize (_queue self) →
  Z.of_nat (Queue.qsize (_queue self)) ≤ Queue.maxsize (_queue self) →
  let st := run (self, tr) (map NewSample samples) in
  dropped (snd st)
  = dropped tr
    ++ drop (Z.to_nat (Queue.maxsize (_queue self)) - Queue.qsize (_queue self)) frames
  ∧ produced (snd st) = produced tr ++ frames
  ∧ consumed (snd st) = consumed tr.
Proof.
  intros self tr HF. revert self tr.
  induction HF as [|sample frame samples frames Hu _ IH]; intros self tr Hpos Hle.
  - cbn. by rewrite drop_nil, !app_nil_r.
  - cbn [map run fold_left]. fold (run (step (self, tr) (NewSample sample))
                                     (map NewSample samples)).
    cbn [step]. rewrite Hu, (on_new_sample_frame _ _ _ Hu).
    destruct (Z.lt_ge_cases (Z.of_nat (Queue.qsize (_queue self)))
                (Queue.maxsize (_queue self))) as [Hroom|Hfull].
    + rewrite put_nowait_room by done. cbn [snd].
      match goal with |- context [run (?s, ?t) _] =>
        destruct (IH s t) as (H1 & H2 & H3) end.
      { done. }
      { cbn [_queue set_queue Queue.maxsize]. unfold Queue.qsize in *.
        cbn [Queue.items]. rewrite length_app. cbn [length]. lia. }
      rewrite H1, H2, H3.
      cbn [_queue set_queue Queue.maxsize produced dropped consumed].
      unfold Queue.qsize in *. cbn [Queue.items]. rewrite length_app. cbn [length].
      split; [|by rewrite <- app_assoc].
      f_equal.
      replace (Z.to_nat (Queue.maxsize (_queue self))
               - length (Queue.items (_queue self)))%nat
        with (S (Z.to_nat (Queue.maxsize (_queue self))
                 - (length (Queue.items (_queue self)) + 1)))%nat by lia.
      done.
    + rewrite put_nowait_full by lia. cbn [snd].
      match goal with |- context [run (?s, ?t) _] =>
        destruct (IH s t) as (H1 & H2 & H3) end; [done..|].
      rewrite H1, H2, H3. cbn [produced dropped consumed].
      replace (Z.to_nat (Queue.maxsize (_queue self)) - Queue.qsize (_queue self))%nat
        with 0%nat by lia.
      cbn [drop]. by rewrite <- !app_assoc.
Qed.

(** X17. When deliveries follow one another with no pull in between on
    a queue of capacity [maxsize > 0], the frames turned away are
    exactly those that come after the first [maxsize - qsize], in their
    order: a full queue drops the newest frames and none of the
    older. *)
Theorem overflow_drops_the_newest
    (self : GStreamerFileSource)
    (samples : list RawSample) (frames : list ndarray) :
  0 < Queue.maxsize (_queue self) →
  Z.of_nat (Queue.qsize (_queue self)) ≤ Queue.maxsize (_queue self) →
  Forall2 (λ sample frame, unpack sample = Continue frame) samples frames →
  let st := run (self, no_trace) (map NewSample samples) in
  let room := (Z.to_nat (Queue.maxsize (_queue self)) - Queue.qsize (_queue self))%nat in
  dropped (snd st) = drop room frames
  ∧ Queue.items (_queue (fst st)) = Queue.items (_queue self) ++ take room frames
  ∧ produced (snd st) = frames.
Proof.
  intros Hpos Hle HF st room.
  destruct (run_new_samples_dropped samples frames self no_trace HF Hpos Hle)
    as (H1 & H2 & _).
  split; [exact H1|]. split; [|exact H2].
  subst st room. rewrite (run_new_samples_items samples frames) by done.
  unfold Queue.qsize in *. rewrite take_app.
  rewrite take_ge by lia. done.
Qed.

Lemma overflow_drops_the_newest_witness :
  dropped (snd (run (__init__ "video.mp4" 1 1 2, no_trace)
                  (map NewSample [tagged_sample x01; tagged_sample x02;
                                  tagged_sample x03; tagged_sample x04])))
  = [tagged_frame x03; tagged_frame x04].
Proof.
  assert (H := overflow_drops_the_newest (__init__ "video.mp4" 1 1 2)
                 [tagged_sample x01; tagged_sample x02;
                  tagged_sample x03; tagged_sample x04]
                 [tagged_frame x01; tagged_frame x02;
                  tagged_frame x03; tagged_frame x04]
                 ltac:(simpl; lia) ltac:(vm_compute; discriminate)
                 ltac:(repeat constructor)).
  destruct H as (H & _). exact H.
Defined.
